(** * The selective read-through cache of controllers/common/cache.go

    A shallow embedding of [CSCache]: the key scheme, the registry of
    watch-backed stores ([informerMap]) and its construction, the read path
    ([Get], [List]) with its refill from the remote store, field indexing
    and the sync wait.  [NewCSCache] and [Start], which only wire the
    fallback cache and launch the watch tasks, are not part of it.

    Go strings are byte strings: they are modelled by [string], whose
    characters are the 8-bit [ascii].  Go maps are [gmap]s.  Pointers to
    informers, to the caller's objects and to the caller's list objects are
    locations into the heaps of a [World]; the Go functions are computations
    in a state monad over that world which can also stop on a run-time
    panic.  An [error] result is an ordinary value, [None] for nil.

    The libraries around the file (client-go's informer and indexed store,
    the rest client, the scheme, apimachinery's selectors and SetList) are
    modelled as far as the file uses them; the fallback cache is a record
    of arbitrary computations. *)

From Stdlib Require Import String Ascii List ZArith Bool Lia.
From stdpp Require Import base tactics option list strings gmap fin_maps.

Local Open Scope string_scope.
Local Open Scope list_scope.

(** ** Strings and slices *)

(** [s[:hi]] on a Go string: the first [hi] bytes, a run-time panic when
    [hi] is negative or beyond the length. *)
Definition slice_to (s : string) (hi : Z) : option string :=
  if (hi <? 0)%Z then None
  else if (Z.of_nat (String.length s) <? hi)%Z then None
  else Some (String.substring 0 (Z.to_nat hi) s).

(** ** Resource kind identifiers *)

Record GroupVersionKind : Type := mkGVK {
  Group : string;
  Version : string;
  Kind : string
}.

Global Instance GroupVersionKind_eq_dec : EqDecision GroupVersionKind.
Proof. solve_decision. Defined.

Definition gvk_to_tuple (g : GroupVersionKind) : string * string * string :=
  (Group g, Version g, Kind g).
Definition gvk_of_tuple (t : string * string * string) : GroupVersionKind :=
  mkGVK t.1.1 t.1.2 t.2.

Global Instance GroupVersionKind_countable : Countable GroupVersionKind.
Proof.
  apply (inj_countable' gvk_to_tuple gvk_of_tuple).
  intros [g v k]. reflexivity.
Defined.

(** ** Outcomes of a call: a value, or a run-time panic *)

Inductive res (A : Type) : Type :=
| Ret (a : A)
| Panic (msg : string).
Arguments Ret {A} a.
Arguments Panic {A} msg.

(** ** Key scheme and the small pure helpers *)

(** kindToResource converts kind to resource: a lookup in a two-entry map,
    the zero value (the empty string) for a missing key. *)
Definition kindToResourceMap : gmap string string :=
  <["ValidatingWebhookConfiguration" := "validatingwebhookconfigurations"]>
  (<["MutatingWebhookConfiguration" := "mutatingwebhookconfigurations"]> ∅).

Definition kindToResource (kind : string) : string :=
  default "" (kindToResourceMap !! kind).

(** listToGVK converts GVK list to GVK.  The slice expression panics on a
    kind shorter than two bytes. *)
Definition listToGVK (list : GroupVersionKind) : res GroupVersionKind :=
  match slice_to (Kind list) (Z.of_nat (String.length (Kind list)) - 2) with
  | Some k => Ret (mkGVK (Group list) (Version list) k)
  | None => Panic "slice bounds out of range"
  end.

(** The list identifier that buildInformerMap derives from a kind. *)
Definition gvkList (gvk : GroupVersionKind) : GroupVersionKind :=
  mkGVK (Group gvk) (Version gvk) (Kind gvk +:+ "List").

(** FieldIndexName constructs the name of the index over the given field. *)
Definition FieldIndexName (field : string) : string := "field:" +:+ field.

Definition allNamespacesNamespace : string := "__all_namespaces".

(** KeyToNamespacedKey prefixes the given index key with a namespace. *)
Definition KeyToNamespacedKey (ns baseKey : string) : string :=
  if decide (ns ≠ "") then ns +:+ "/" +:+ baseKey
  else allNamespacesNamespace +:+ "/" +:+ baseKey.

(** ** Field selectors (k8s.io/apimachinery/pkg/fields, pkg/selection) *)

Inductive Operator : Type :=
| DoesNotExist | Equals | DoubleEquals | In | NotEquals | NotIn | Exists
| GreaterThan | LessThan.

Global Instance Operator_eq_dec : EqDecision Operator.
Proof. solve_decision. Defined.

Record Requirement : Type := mkReq {
  Operator_ : Operator;
  Field : string;
  Value : string
}.

(** A field selector is used only through [Requirements()]: it is modelled
    by the list of requirements that call returns. *)
Definition Selector : Type := list Requirement.
Definition Requirements (sel : Selector) : list Requirement := sel.

(** requiresExactMatch checks if the given field selector is of the form
    k=v or k==v. *)
Definition requiresExactMatch (sel : Selector) : string * string * bool :=
  let reqs := Requirements sel in
  if decide (length reqs ≠ 1) then ("", "", false)
  else match reqs with
       | req :: _ =>
           if decide (Operator_ req ≠ Equals ∧ Operator_ req ≠ DoubleEquals)
           then ("", "", false)
           else (Field req, Value req, true)
       | [] => ("", "", false)
       end.

(** ** Errors *)

Inductive StatusReason : Type :=
| StatusReasonNotFound
| StatusReasonOther (reason : string).

(** Errors handed over by the collaborators (the remote store, the rest
    client, the type scheme, the informer's store, the fallback cache):
    API status errors and everything else. *)
Inductive xerror : Type :=
| StatusError (reason : StatusReason) (message : string)
| OtherError (message : string).

(** The errors of this layer: those passed through from a collaborator
    and the ones made by the fmt.Errorf calls of the file. *)
Inductive error : Type :=
| External (e : xerror)
| NotAnObject (ty : string)
    (* "cache contained %T, which is not an Object",
       "object of type %T is not an Object" *)
| TypeMismatch (had asked : string)
    (* "cache had type %s, but %s was asked for" *)
| NonExactField.
    (* "non-exact field matches are not supported by the cache" *)

Inductive result (A : Type) : Type :=
| Ok (a : A)
| Err (e : error).
Arguments Ok {A} a.
Arguments Err {A} e.

(** apierrors.IsNotFound; false on a nil error. *)
Definition IsNotFound (err : option error) : bool :=
  match err with
  | Some (External (StatusError StatusReasonNotFound _)) => true
  | _ => false
  end.

(** apierrors.NewNotFound(schema.GroupResource{Group, Resource}, name). *)
Definition NewNotFound (group resource name : string) : error :=
  External (StatusError StatusReasonNotFound
    (resource +:+ "." +:+ group +:+ " " +:+ name +:+ " not found")).

(** ** Objects *)

(** The dynamic Go type behind an interface value, by name. *)
Definition GoType : Type := string.

Record ObjectMeta : Type := mkMeta {
  Namespace : string;
  Name : string;
  Labels : gmap string string
}.

(** A runtime.Object.  [obj_meta] is [None] for an object that carries no
    object metadata (apimeta.Accessor fails on it). *)
Record Object : Type := mkObject {
  obj_type : GoType;
  obj_gvk : GroupVersionKind;
  obj_meta : option ObjectMeta;
  obj_data : gmap string string
}.

(** What an informer's store holds: interface{} values, in practice
    objects. *)
Inductive Item : Type :=
| IObj (o : Object)
| IRaw (ty : GoType).

Record ObjectList : Type := mkObjectList {
  list_type : GoType;
  list_elem_type : GoType;
  list_gvk : GroupVersionKind;
  list_items : list Object
}.

Record ObjectKey : Type := mkKey {
  key_Namespace : string;
  key_Name : string
}.

(** client.ObjectKey.String() *)
Definition key_String (key : ObjectKey) : string :=
  key_Namespace key +:+ "/" +:+ key_Name key.

Definition Accessor (obj : Object) : result ObjectMeta :=
  match obj_meta obj with
  | Some m => Ok m
  | None => Err (External (OtherError "object does not implement the Object interfaces"))
  end.

Definition DeepCopyObject (obj : Object) : Object := obj.

Definition SetGroupVersionKind (obj : Object) (gvk : GroupVersionKind) : Object :=
  {| obj_type := obj_type obj; obj_gvk := gvk;
     obj_meta := obj_meta obj; obj_data := obj_data obj |}.

(** reflect: pointer-to-struct types are assignable exactly when they are
    identical. *)
Definition AssignableTo (t u : GoType) : bool := bool_decide (t = u).

(** ** Label selectors and list options *)

(** labels.Selector, used through [Matches] only. *)
Definition LabelSelector : Type := gmap string string → bool.

(** client.ListOptions after ApplyOptions. *)
Record ListOptions : Type := mkListOptions {
  opt_LabelSelector : option LabelSelector;
  opt_FieldSelector : option Selector;
  opt_Namespace : string
}.

(** ** The informer and its indexed store (k8s.io/client-go/tools/cache) *)

(** An index function: ([]string, error), or a run-time panic. *)
Definition IndexFunc : Type := Item → res (result (list string)).

Record Config : Type := mkConfig {
  Host : string;
  APIPath : string;
  GroupVersion : option (string * string);
  UserAgent : string;
  NegotiatedSerializer : option string
}.

(** The narrow client: it remembers the configuration it was built from. *)
Record RESTClient : Type := mkRESTClient { rc_config : Config }.

Record ListWatch : Type := mkListWatch {
  lw_client : RESTClient;
  lw_resource : string;
  lw_namespace : string
}.

Record Informer : Type := mkInformer {
  inf_listerWatcher : ListWatch;
  inf_objType : GoType;
  inf_resync : nat;
  items : gmap string Item;
  indexers : gmap string IndexFunc;
  hasSynced : bool
}.

Definition NamespaceIndex : string := "namespace".

(** toolscache.MetaNamespaceIndexFunc *)
Definition MetaNamespaceIndexFunc : IndexFunc := λ item,
  match item with
  | IObj o =>
      match obj_meta o with
      | Some m => Ret (Ok [Namespace m])
      | None => Ret (Err (External (OtherError "object has no meta")))
      end
  | IRaw _ => Ret (Err (External (OtherError "object has no meta")))
  end.

Definition indexed_under (f : IndexFunc) (indexedValue : string) (item : Item) : bool :=
  match f item with
  | Ret (Ok keys) => bool_decide (indexedValue ∈ keys)
  | _ => false
  end.

(** Indexer.GetByKey: (item, exists, err); the thread-safe store never
    fails. *)
Definition GetByKey (inf : Informer) (key : string) : result (option Item) :=
  Ok (items inf !! key).

(** Indexer.ByIndex: the items whose index function yields the value, an
    error for an index that was never registered. *)
Definition ByIndex (inf : Informer) (indexName indexedValue : string) : result (list Item) :=
  match indexers inf !! indexName with
  | None => Err (External (OtherError ("Index with name " +:+ indexName +:+ " does not exist")))
  | Some f => Ok (filter (λ it, indexed_under f indexedValue it = true) (map snd (map_to_list (items inf))))
  end.

(** Indexer.List: every item of the store. *)
Definition StoreList (inf : Informer) : list Item := map snd (map_to_list (items inf)).

(** Informer.AddIndexers with one index. *)
Definition AddIndexer (inf : Informer) (name : string) (f : IndexFunc) : result Informer :=
  match indexers inf !! name with
  | Some _ => Err (External (OtherError "indexer conflict"))
  | None => Ok {| inf_listerWatcher := inf_listerWatcher inf; inf_objType := inf_objType inf;
                  inf_resync := inf_resync inf; items := items inf;
                  indexers := <[name := f]> (indexers inf); hasSynced := hasSynced inf |}
  end.

(** ** The world: heaps, the remote store, the clock *)

Definition loc : Type := positive.

(** A GET request as the rest client's builder assembles it. *)
Record Request : Type := mkRequest {
  req_client : RESTClient;
  req_namespace : option string;    (* NamespaceIfScoped *)
  req_name : string;
  req_resource : string
}.

Record World : Type := mkWorld {
  informers : gmap loc Informer;    (* the informers, by pointer *)
  objs : gmap loc Object;           (* objects the callers own *)
  lists : gmap loc ObjectList;      (* list objects the callers own *)
  apiserver : Request → xerror + Object;  (* what the remote store answers now *)
  requests : list Request;          (* the requests sent to it, latest first *)
  now : nat                         (* seconds elapsed *)
}.

Definition set_informers (f : gmap loc Informer → gmap loc Informer) (w : World) : World :=
  {| informers := f (informers w); objs := objs w; lists := lists w;
     apiserver := apiserver w; requests := requests w; now := now w |}.
Definition set_objs (f : gmap loc Object → gmap loc Object) (w : World) : World :=
  {| informers := informers w; objs := f (objs w); lists := lists w;
     apiserver := apiserver w; requests := requests w; now := now w |}.
Definition set_lists (f : gmap loc ObjectList → gmap loc ObjectList) (w : World) : World :=
  {| informers := informers w; objs := objs w; lists := f (lists w);
     apiserver := apiserver w; requests := requests w; now := now w |}.
Definition set_now (t : nat) (w : World) : World :=
  {| informers := informers w; objs := objs w; lists := lists w;
     apiserver := apiserver w; requests := requests w; now := t |}.
Definition log_request (req : Request) (w : World) : World :=
  {| informers := informers w; objs := objs w; lists := lists w;
     apiserver := apiserver w; requests := req :: requests w; now := now w |}.

(** ** The monad of Go calls: state over the world, stopping on a panic *)

Definition M (A : Type) : Type := World → res A * World.

Global Instance M_ret : MRet M := λ A a w, (Ret a, w).
Global Instance M_bind : MBind M := λ A B f m w,
  match m w with
  | (Ret a, w') => f a w'
  | (Panic msg, w') => (Panic msg, w')
  end.

Global Instance res_ret : MRet res := λ A a, Ret a.
Global Instance res_bind : MBind res := λ A B f r,
  match r with
  | Ret a => f a
  | Panic msg => Panic msg
  end.

Definition panic {A} (msg : string) : M A := λ w, (Panic msg, w).
Definition lift_res {A} (r : res A) : M A := λ w, (r, w).

(** Dereferences; a location that holds nothing is a nil pointer. *)
Definition read_informer (l : loc) : M Informer := λ w,
  match informers w !! l with
  | Some inf => (Ret inf, w)
  | None => (Panic "nil pointer dereference", w)
  end.
Definition read_obj (l : loc) : M Object := λ w,
  match objs w !! l with
  | Some o => (Ret o, w)
  | None => (Panic "nil pointer dereference", w)
  end.
Definition read_list (l : loc) : M ObjectList := λ w,
  match lists w !! l with
  | Some o => (Ret o, w)
  | None => (Panic "nil pointer dereference", w)
  end.
Definition write_informer (l : loc) (inf : Informer) : M unit := λ w,
  (Ret tt, set_informers (insert l inf) w).
Definition write_obj (l : loc) (o : Object) : M unit := λ w,
  (Ret tt, set_objs (insert l o) w).
Definition write_list (l : loc) (o : ObjectList) : M unit := λ w,
  (Ret tt, set_lists (insert l o) w).

(** A new informer at a location that is not in use. *)
Definition alloc_informer (inf : Informer) : M loc := λ w,
  let l := fresh (dom (informers w)) in
  (Ret l, set_informers (insert l inf) w).

(** reflect.Indirect(objVal).Set(reflect.Indirect(itemVal)): overwrites
    the caller's object with the item, and panics when the item's type is
    not assignable to the object's. *)
Definition reflect_Set (obj : loc) (item : Object) : M unit :=
  o ← read_obj obj;
  if AssignableTo (obj_type item) (obj_type o) then write_obj obj item
  else panic "reflect.Set: value is not assignable to type".

(** obj.GetObjectKind().SetGroupVersionKind(gvk) on the caller's object. *)
Definition obj_SetGroupVersionKind (obj : loc) (gvk : GroupVersionKind) : M unit :=
  o ← read_obj obj;
  write_obj obj (SetGroupVersionKind o gvk).

(** apimeta.SetList: builds the new items off to the side and stores them
    at the end, or fails on the first object that does not fit the list's
    element type and leaves the list as it was. *)
Definition SetList (lst : loc) (objects : list Object) : M (option error) :=
  l ← read_list lst;
  if forallb (λ o, AssignableTo (obj_type o) (list_elem_type l)) objects
  then write_list lst {| list_type := list_type l; list_elem_type := list_elem_type l;
                          list_gvk := list_gvk l; list_items := objects |};;
       mret None
  else mret (Some (External (OtherError "item: can't assign or convert"))).

(** ** Collaborators *)

(** runtime.Scheme, through apiutil.GVKForObject and Scheme.New. *)
Record Scheme_ : Type := mkScheme {
  GVKForType : GoType → xerror + GroupVersionKind;
  New : GroupVersionKind → xerror + GoType
}.

Definition of_x {A} (r : xerror + A) : result A :=
  match r with
  | inl e => Err (External e)
  | inr a => Ok a
  end.

Definition GVKForObject (obj : loc) (scheme : Scheme_) : M (result GroupVersionKind) :=
  o ← read_obj obj; mret (of_x (GVKForType scheme (obj_type o))).
Definition GVKForObjectList (list : loc) (scheme : Scheme_) : M (result GroupVersionKind) :=
  l ← read_list list; mret (of_x (GVKForType scheme (list_type l))).

(** A context, seen through its Done channel: the second at which the
    cancellation signal fires, if it ever does. *)
Record Context : Type := mkContext { cancelled_at : option nat }.

Definition Done (ctx : Context) (t : nat) : bool :=
  match cancelled_at ctx with
  | Some c => bool_decide (c ≤ t)%nat
  | None => false
  end.

(** cache.Cache, the interface of the fallback cache; a black box. *)
Record Cache : Type := mkCache {
  cache_Get : Context → ObjectKey → loc → M (option error);
  cache_List : Context → loc → ListOptions → M (option error);
  cache_GetInformer : Context → loc → M (result loc);
  cache_GetInformerForKind : Context → GroupVersionKind → M (result loc);
  cache_WaitForCacheSync : Context → M bool;
  cache_IndexField : Context → loc → string → (Object → list string) → M (option error)
}.

(** cache.Options, the fields this layer reads. *)
Record Options : Type := mkOptions {
  opts_Scheme : Scheme_;
  opts_Namespace : string
}.

(** CSCache is the customized cache for CS *)
Record CSCache : Type := mkCSCache {
  config : Config;
  informerMap : gmap GroupVersionKind loc;
  fallback : Cache;
  Scheme : Scheme_
}.

(** ** The cache *)

Section CSCache.

(** rest.RESTClientFor, rest.DefaultKubernetesUserAgent and
    runtime.DefaultUnstructuredConverter.FromUnstructured (on the content
    that carries only the kind), as the libraries provide them. *)
Variable RESTClientFor : Config → xerror + RESTClient.
Variable DefaultKubernetesUserAgent : string.
Variable FromUnstructured : GroupVersionKind → GoType → option xerror.

(** What the watch tasks and the remote store do to the world while a
    caller sleeps for one second. *)
Variable background : World → World.

Definition getClientForGVK (gvk : GroupVersionKind) (config : Config) (scheme : Scheme_)
  : result RESTClient :=
  let gv := (Group gvk, Version gvk) in
  let cfg := config in
  let cfg := {| Host := Host cfg; APIPath := APIPath cfg; GroupVersion := Some gv;
                UserAgent := UserAgent cfg;
                NegotiatedSerializer := NegotiatedSerializer cfg |} in
  let cfg := {| Host := Host cfg; APIPath := "/apis"; GroupVersion := GroupVersion cfg;
                UserAgent := UserAgent cfg;
                NegotiatedSerializer := NegotiatedSerializer cfg |} in
  let cfg := if decide (UserAgent cfg = "")
             then {| Host := Host cfg; APIPath := APIPath cfg;
                     GroupVersion := GroupVersion cfg;
                     UserAgent := DefaultKubernetesUserAgent;
                     NegotiatedSerializer := NegotiatedSerializer cfg |}
             else cfg in
  let cfg := match NegotiatedSerializer cfg with
             | None => {| Host := Host cfg; APIPath := APIPath cfg;
                          GroupVersion := GroupVersion cfg; UserAgent := UserAgent cfg;
                          NegotiatedSerializer := Some "WithoutConversionCodecFactory" |}
             | Some _ => cfg
             end in
  of_x (RESTClientFor cfg).

(** toolscache.NewFilteredListWatchFromClient *)
Definition NewFilteredListWatchFromClient (client : RESTClient) (resource namespace : string)
  : ListWatch :=
  {| lw_client := client; lw_resource := resource; lw_namespace := namespace |}.

(** toolscache.NewSharedIndexInformer: an empty store that has not synced. *)
Definition NewSharedIndexInformer (lw : ListWatch) (exampleObject : GoType) (resync : nat)
    (ixs : gmap string IndexFunc) : M loc :=
  alloc_informer {| inf_listerWatcher := lw; inf_objType := exampleObject;
                    inf_resync := resync; items := ∅; indexers := ixs;
                    hasSynced := false |}.

(** The loop of buildInformerMap over clusterGVKList. *)
Fixpoint buildInformerMap_loop (config : Config) (opts : Options) (resync : nat)
    (clusterGVKList : list GroupVersionKind) (informerMap : gmap GroupVersionKind loc)
  : M (result (gmap GroupVersionKind loc)) :=
  match clusterGVKList with
  | [] => mret (Ok informerMap)
  | gvk :: rest =>
      match getClientForGVK gvk config (opts_Scheme opts) with
      | Err err => mret (Err err)
      | Ok client =>
          let plural := kindToResource (Kind gvk) in
          let listerWatcher :=
            NewFilteredListWatchFromClient client plural (opts_Namespace opts) in
          match of_x (New (opts_Scheme opts) gvk) with
          | Err err => mret (Err err)
          | Ok typed =>
              match FromUnstructured gvk typed with
              | Some err => mret (Err (External err))
              | None =>
                  informer ← NewSharedIndexInformer listerWatcher typed resync
                               {[ NamespaceIndex := MetaNamespaceIndexFunc ]};
                  let informerMap := <[gvk := informer]> informerMap in
                  let gvkList := mkGVK (Group gvk) (Version gvk) (Kind gvk +:+ "List") in
                  let informerMap := <[gvkList := informer]> informerMap in
                  buildInformerMap_loop config opts resync rest informerMap
              end
          end
      end
  end.

(** buildInformerMap generates informerMap of the specified resource *)
Definition buildInformerMap (config : Config) (opts : Options) (resync : nat)
    (clusterGVKList : list GroupVersionKind) : M (result (gmap GroupVersionKind loc)) :=
  buildInformerMap_loop config opts resync clusterGVKList ∅.

(** getFromStore gets the resource from the cache *)
Definition getFromStore (c : CSCache) (informer : loc) (key : ObjectKey) (obj : loc)
    (gvk : GroupVersionKind) : M (option error) :=
  let keyString := if decide (key_Namespace key = "") then key_Name key
                   else key_Namespace key +:+ "/" +:+ key_Name key in
  inf ← read_informer informer;
  match GetByKey inf keyString with
  | Err err => mret (Some err)
  | Ok None => mret (Some (NewNotFound (Group gvk) (Kind gvk) (key_String key)))
  | Ok (Some (IRaw ty)) => mret (Some (NotAnObject ty))
  | Ok (Some (IObj item)) =>
      let item := DeepCopyObject item in
      o ← read_obj obj;
      let objValType := obj_type o in
      let itemValType := obj_type item in
      if negb (AssignableTo objValType objValType)
      then mret (Some (TypeMismatch itemValType objValType))
      else reflect_Set obj item;;
           obj_SetGroupVersionKind obj gvk;;
           mret None
  end.

(** client.Get()...Do(ctx).Get(): the request goes out and the remote
    store answers. *)
Definition rest_Get (req : Request) : M (result Object) := λ w,
  (Ret (of_x (apiserver w req)), log_request req w).

(** getFromClient gets the resource by the k8s client *)
Definition getFromClient (c : CSCache) (ctx : Context) (key : ObjectKey) (obj : loc)
    (gvk : GroupVersionKind) : M (option error) :=
  let resource := kindToResource (Kind gvk) in
  match getClientForGVK gvk (config c) (Scheme c) with
  | Err err => mret (Some err)
  | Ok client =>
      r ← rest_Get {| req_client := client;
                      req_namespace := if decide (key_Namespace key ≠ "")
                                       then Some (key_Namespace key) else None;
                      req_name := key_Name key;
                      req_resource := resource |};
      match r with
      | Err err =>
          if IsNotFound (Some err) then mret (Some err)
          else mret (Some err)
      | Ok result =>
          o ← read_obj obj;
          let objValType := obj_type o in
          let itemValType := obj_type result in
          if negb (AssignableTo objValType objValType)
          then mret (Some (TypeMismatch itemValType objValType))
          else reflect_Set obj result;;
               obj_SetGroupVersionKind obj gvk;;
               mret None
      end
  end.

(** Get implements Reader *)
Definition Get (c : CSCache) (ctx : Context) (key : ObjectKey) (obj : loc)
  : M (option error) :=
  r ← GVKForObject obj (Scheme c);
  match r with
  | Err err => mret (Some err)
  | Ok gvk =>
      match informerMap c !! gvk with
      | Some informer =>
          err ← getFromStore c informer key obj gvk;
          match err with
          | None => mret None
          | Some _ =>
              err ← getFromClient c ctx key obj gvk;
              match err with
              | Some err => mret (Some err)
              | None => mret None
              end
          end
      | None => cache_Get (fallback c) ctx key obj
      end
  end.

(** The candidates of List: by the field index, by the namespace index,
    or the whole store. *)
Definition List_candidates (informer : loc) (listOpts : ListOptions)
  : M (result (list Item)) :=
  match opt_FieldSelector listOpts with
  | Some fieldSelector =>
      let '(field, val, requiresExact) := requiresExactMatch fieldSelector in
      if negb requiresExact then mret (Err NonExactField)
      else inf ← read_informer informer;
           mret (ByIndex inf (FieldIndexName field)
                   (KeyToNamespacedKey (opt_Namespace listOpts) val))
  | None =>
      if decide (opt_Namespace listOpts ≠ "")
      then inf ← read_informer informer;
           mret (ByIndex inf NamespaceIndex (opt_Namespace listOpts))
      else inf ← read_informer informer;
           mret (Ok (StoreList inf))
  end.

(** The loop of List over objList: check namespace and labelSelector. *)
Fixpoint List_loop (gvk : GroupVersionKind) (listOpts : ListOptions)
    (labelSel : option LabelSelector) (objList : list Item)
    (runtimeObjList : list Object) : res (result (list Object)) :=
  match objList with
  | [] => Ret (Ok runtimeObjList)
  | item :: rest =>
      match item with
      | IRaw _ => Ret (Err (NotAnObject "<nil>"))
      | IObj obj =>
          match Accessor obj with
          | Err err => Ret (Err err)
          | Ok meta =>
              let namespace := if decide (opt_Namespace listOpts ≠ "")
                               then opt_Namespace listOpts else "" in
              if decide (namespace ≠ "" ∧ namespace ≠ Namespace meta)
              then List_loop gvk listOpts labelSel rest runtimeObjList
              else if match labelSel with
                      | Some sel => negb (sel (Labels meta))
                      | None => false
                      end
              then List_loop gvk listOpts labelSel rest runtimeObjList
              else
                let outObj := DeepCopyObject obj in
                k ← listToGVK gvk;
                let outObj := SetGroupVersionKind outObj k in
                List_loop gvk listOpts labelSel rest (app runtimeObjList [outObj])
          end
      end
  end.

(** List lists items out of the indexer and writes them to list *)
Definition List (c : CSCache) (ctx : Context) (lst : loc) (listOpts : ListOptions)
  : M (option error) :=
  r ← GVKForObjectList lst (Scheme c);
  match r with
  | Err err => mret (Some err)
  | Ok gvk =>
      match informerMap c !! gvk with
      | Some informer =>
          let labelSel := opt_LabelSelector listOpts in
          r ← List_candidates informer listOpts;
          match r with
          | Err err => mret (Some err)
          | Ok objList =>
              r ← lift_res (List_loop gvk listOpts labelSel objList []);
              match r with
              | Err err => mret (Some err)
              | Ok runtimeObjList => SetList lst runtimeObjList
              end
          end
      | None => cache_List (fallback c) ctx lst listOpts
      end
  end.

(** GetInformer fetches or constructs an informer for the given object *)
Definition GetInformer (c : CSCache) (ctx : Context) (obj : loc) : M (result loc) :=
  r ← GVKForObject obj (Scheme c);
  match r with
  | Err err => mret (Err err)
  | Ok gvk =>
      match informerMap c !! gvk with
      | Some informer => mret (Ok informer)
      | None => cache_GetInformer (fallback c) ctx obj
      end
  end.

(** GetInformerForKind takes a group-version-kind, instead of the
    underlying object. *)
Definition GetInformerForKind (c : CSCache) (ctx : Context) (gvk : GroupVersionKind)
  : M (result loc) :=
  match informerMap c !! gvk with
  | Some informer => mret (Ok informer)
  | None => cache_GetInformerForKind (fallback c) ctx gvk
  end.

(** The select of WaitForCacheSync: [true] when the Done channel of the
    context is taken, [false] when the one-second timer is.  A context
    that is already cancelled is taken at once; otherwise a second passes,
    and a cancellation that arrived meanwhile is taken. *)
Definition select_Done_or_After (ctx : Context) : M bool := λ w,
  if Done ctx (now w) then (Ret true, w)
  else let w' := set_now (S (now w)) (background w) in
       (Ret (Done ctx (now w')), w').

(** The inner loop of WaitForCacheSync over the informers. *)
Fixpoint anyUnsynced (infs : list loc) (currentWaiting : bool) : M bool :=
  match infs with
  | [] => mret currentWaiting
  | informer :: rest =>
      inf ← read_informer informer;
      anyUnsynced rest (negb (hasSynced inf) || currentWaiting)
  end.

(** The outer loop, for at most [fuel] rounds: [true] once waiting is
    false, [false] when the rounds are used up. *)
Fixpoint WaitForCacheSync_loop (fuel : nat) (c : CSCache) (ctx : Context) : M bool :=
  match fuel with
  | O => mret false
  | S fuel' =>
      done ← select_Done_or_After ctx;
      if (done : bool) then mret true
      else if decide (size (informerMap c) = 0%nat) then mret true
      else currentWaiting ← anyUnsynced (map snd (map_to_list (informerMap c))) false;
           if (currentWaiting : bool) then WaitForCacheSync_loop fuel' c ctx
           else mret true
  end.

(** WaitForCacheSync waits for all the caches to sync; [None] when the
    rounds are used up before the wait on the informers ends. *)
Definition WaitForCacheSync (fuel : nat) (c : CSCache) (ctx : Context) : M (option bool) :=
  exited ← WaitForCacheSync_loop fuel c ctx;
  if (exited : bool)
  then synced ← cache_WaitForCacheSync (fallback c) ctx; mret (Some synced)
  else mret None.

(** The two slices of the index function: rawVals, and vals, which is
    rawVals itself (one backing array) for an object without a namespace
    and a slice of its own otherwise. *)
Record Slices : Type := mkSlices {
  rawVals : list string;
  ownVals : option (list string)
}.

Definition vals (s : Slices) : list string :=
  match ownVals s with
  | Some v => v
  | None => rawVals s
  end.

(** vals[i] = x, a panic when [i] is out of range. *)
Definition set_vals (i : nat) (x : string) (s : Slices) : res Slices :=
  if decide (i < length (vals s))%nat
  then match ownVals s with
       | Some v => Ret {| rawVals := rawVals s; ownVals := Some (<[i := x]> v) |}
       | None => Ret {| rawVals := <[i := x]> (rawVals s); ownVals := None |}
       end
  else Panic "index out of range".

(** The range loop of the index function, from index [i], with [count]
    elements to go; [n] is len(rawVals). *)
Fixpoint indexFunc_loop (ns : string) (n i count : nat) (s : Slices) : res Slices :=
  match count with
  | O => Ret s
  | S count' =>
      match rawVals s !! i with
      | None => Panic "index out of range"
      | Some rawVal =>
          s ← set_vals i (KeyToNamespacedKey ns rawVal) s;
          s ← (if decide (ns ≠ "")
               then set_vals (i + n) (KeyToNamespacedKey "" rawVal) s
               else Ret s);
          indexFunc_loop ns n (S i) count' s
      end
  end.

(** The index function that indexByField wraps around the extractor. *)
Definition indexFunc (extractor : Object → list string) : IndexFunc := λ objRaw,
  match objRaw with
  | IRaw ty => Ret (Err (NotAnObject ty))
  | IObj obj =>
      match obj_meta obj with
      | None => Ret (Err (NotAnObject (obj_type obj)))
      | Some _ =>
          match Accessor obj with
          | Err err => Ret (Err err)
          | Ok meta =>
              let ns := Namespace meta in
              let rawVals := extractor obj in
              let s := if decide (ns = "")
                       then {| rawVals := rawVals; ownVals := None |}
                       else {| rawVals := rawVals;
                               ownVals := Some (replicate (length rawVals * 2) "") |} in
              s ← indexFunc_loop ns (length rawVals) 0 (length rawVals) s;
              Ret (Ok (vals s))
          end
      end
  end.

Definition indexByField (indexer : loc) (field : string) (extractor : Object → list string)
  : M (option error) :=
  inf ← read_informer indexer;
  match AddIndexer inf (FieldIndexName field) (indexFunc extractor) with
  | Err err => mret (Some err)
  | Ok inf' => write_informer indexer inf';; mret None
  end.

(** IndexField adds an indexer to the underlying cache *)
Definition IndexField (c : CSCache) (ctx : Context) (obj : loc) (field : string)
    (extractValue : Object → list string) : M (option error) :=
  r ← GVKForObject obj (Scheme c);
  match r with
  | Err err => mret (Some err)
  | Ok gvk =>
      match informerMap c !! gvk with
      | Some informer => indexByField informer field extractValue
      | None => cache_IndexField (fallback c) ctx obj field extractValue
      end
  end.

End CSCache.

(** ** The reading of the specification, for comparison with the code *)

(** Candidate selection as the specification words it: a field selector,
    which must be one equality requirement, is looked up in the field
    index, under the namespace-qualified key when a namespace is asked for
    and under the all-namespaces key otherwise; with no field selector a
    namespace is looked up in the namespace index; with neither, every
    snapshot is a candidate. *)
Definition spec_candidates (inf : Informer) (listOpts : ListOptions) : result (list Item) :=
  match opt_FieldSelector listOpts with
  | Some [req] =>
      if bool_decide (Operator_ req = Equals ∨ Operator_ req = DoubleEquals)
      then ByIndex inf ("field:" +:+ Field req)
             (if decide (opt_Namespace listOpts = "")
              then "__all_namespaces/" +:+ Value req
              else opt_Namespace listOpts +:+ "/" +:+ Value req)
      else Err NonExactField
  | Some _ => Err NonExactField
  | None =>
      if decide (opt_Namespace listOpts = "") then Ok (StoreList inf)
      else ByIndex inf NamespaceIndex (opt_Namespace listOpts)
  end.

(** The post-filter pass as the specification words it: a candidate stays
    when its namespace is the requested one (if one is requested) and the
    label selector (if present) matches its labels. *)
Definition spec_post_filter (listOpts : ListOptions) (o : Object) : bool :=
  match obj_meta o with
  | None => false
  | Some meta =>
      (if decide (opt_Namespace listOpts = "") then true
       else bool_decide (Namespace meta = opt_Namespace listOpts))
      && match opt_LabelSelector listOpts with
         | Some sel => sel (Labels meta)
         | None => true
         end
  end.

(** A kind resolves when its client can be built, the scheme has a type
    for it and the conversion into that type succeeds: the three steps of
    buildInformerMap that can fail. *)
Definition resolves (RESTClientFor : Config → xerror + RESTClient) (userAgent : string)
    (FromUnstructured : GroupVersionKind → GoType → option xerror)
    (config : Config) (opts : Options) (gvk : GroupVersionKind) : bool :=
  match getClientForGVK RESTClientFor userAgent gvk config (opts_Scheme opts) with
  | Err _ => false
  | Ok _ =>
      match New (opts_Scheme opts) gvk with
      | inl _ => false
      | inr typed =>
          match FromUnstructured gvk typed with
          | Some _ => false
          | None => true
          end
      end
  end.

(** No kind of the list writes an entry of [g] for another kind: the list
    holds neither the list identifier of [g] nor a kind whose list
    identifier is [g]. *)
Definition undisturbed (g : GroupVersionKind) (l : list GroupVersionKind) : Prop :=
  (gvkList g ∉ l) ∧ (∀ g', g' ∈ l → gvkList g' ≠ g).

(** The informer that buildInformerMap makes for a kind. *)
Definition new_informer (client : RESTClient) (resource namespace : string)
    (typed : GoType) (resync : nat) : Informer :=
  {| inf_listerWatcher :=
       {| lw_client := client; lw_resource := resource; lw_namespace := namespace |};
     inf_objType := typed;
     inf_resync := resync;
     items := ∅;
     indexers := {[ NamespaceIndex := MetaNamespaceIndexFunc ]};
     hasSynced := false |}.

(** The lookup key of a Get as the specification words it: the name alone
    if there is no namespace, else namespace/name. *)
Definition spec_lookup_key (key : ObjectKey) : string :=
  if decide (key_Namespace key = "") then key_Name key
  else key_Namespace key +:+ "/" +:+ key_Name key.

(** The request of a refill for a key, with a given resource name. *)
Definition refill_request (client : RESTClient) (key : ObjectKey) (resource : string)
  : Request :=
  {| req_client := client;
     req_namespace := if decide (key_Namespace key ≠ "")
                      then Some (key_Namespace key) else None;
     req_name := key_Name key;
     req_resource := resource |}.

(** The copy at the end of getFromStore and of getFromClient, once the
    guard is passed: the item goes into the caller's object, which is then
    stamped. *)
Definition copy_into (obj : loc) (item : Object) (gvk : GroupVersionKind) : M (option error) :=
  reflect_Set obj item;; obj_SetGroupVersionKind obj gvk;; mret None.

(** Two worlds that differ at most in one object of a caller and in the
    log of requests. *)
Definition same_but_obj (obj : loc) (w w' : World) : Prop :=
  informers w' = informers w
  ∧ lists w' = lists w
  ∧ (∀ l, l ≠ obj → objs w' !! l = objs w !! l)
  ∧ apiserver w' = apiserver w
  ∧ now w' = now w.

Definition with_items (l : ObjectList) (objects : list Object) : ObjectList :=
  {| list_type := list_type l; list_elem_type := list_elem_type l;
     list_gvk := list_gvk l; list_items := objects |}.

(** ** A small cluster to run the definitions on *)

Definition sample_gvk : GroupVersionKind := mkGVK "example.io" "v1" "Widget".

(** A scheme in which a Go type and its kind have one name. *)
Definition sample_scheme : Scheme_ :=
  {| GVKForType := λ t, inr (mkGVK "example.io" "v1" t);
     New := λ gvk, inr (Kind gvk) |}.

Definition sample_config : Config :=
  {| Host := "https://cluster.local"; APIPath := ""; GroupVersion := None;
     UserAgent := ""; NegotiatedSerializer := None |}.

Definition sample_RESTClientFor : Config → xerror + RESTClient := λ cfg, inr (mkRESTClient cfg).
Definition sample_FromUnstructured : GroupVersionKind → GoType → option xerror := λ _ _, None.
Definition sample_background : World → World := λ w, w.

Definition sample_widget (ns name color : string) : Object :=
  {| obj_type := "Widget"; obj_gvk := sample_gvk;
     obj_meta := Some {| Namespace := ns; Name := name; Labels := {[ "color" := color ]} |};
     obj_data := {[ "color" := color ]} |}.

Definition sample_color (o : Object) : list string :=
  match obj_data o !! "color" with
  | Some c => [c]
  | None => []
  end.

(** A store with widgets w1 (red) and w3 (blue) in ops and w2 (red) in
    dev, indexed by namespace and by colour, not yet synced. *)
Definition sample_informer : Informer :=
  {| inf_listerWatcher :=
       {| lw_client := mkRESTClient sample_config; lw_resource := ""; lw_namespace := "" |};
     inf_objType := "Widget";
     inf_resync := 0;
     items := <[ "ops/w1" := IObj (sample_widget "ops" "w1" "red") ]>
              (<[ "dev/w2" := IObj (sample_widget "dev" "w2" "red") ]>
              (<[ "ops/w3" := IObj (sample_widget "ops" "w3" "blue") ]> ∅));
     indexers := <[ FieldIndexName "color" := indexFunc sample_color ]>
                 {[ NamespaceIndex := MetaNamespaceIndexFunc ]};
     hasSynced := false |}.

(** A fallback cache that knows nothing and reports itself synced. *)
Definition sample_fallback : Cache :=
  {| cache_Get := λ _ _ _, mret (Some (External (StatusError StatusReasonNotFound "not found")));
     cache_List := λ _ _ _, mret None;
     cache_GetInformer := λ _ _, mret (Err (External (OtherError "no informer")));
     cache_GetInformerForKind := λ _ _, mret (Err (External (OtherError "no informer")));
     cache_WaitForCacheSync := λ _, mret true;
     cache_IndexField := λ _ _ _ _, mret None |}.

Definition sample_cache : CSCache :=
  {| config := sample_config;
     informerMap := <[ gvkList sample_gvk := 1%positive ]> {[ sample_gvk := 1%positive ]};
     fallback := sample_fallback;
     Scheme := sample_scheme |}.

Definition sample_userAgent : string := "operator/v0".

(** The client that getClientForGVK builds for the sample kind. *)
Definition sample_client : RESTClient :=
  mkRESTClient {| Host := "https://cluster.local"; APIPath := "/apis";
                  GroupVersion := Some ("example.io", "v1");
                  UserAgent := sample_userAgent;
                  NegotiatedSerializer := Some "WithoutConversionCodecFactory" |}.

(** An empty widget and an empty widget list, as a caller passes them. *)
Definition sample_obj : Object :=
  {| obj_type := "Widget"; obj_gvk := mkGVK "" "" "";
     obj_meta := Some (mkMeta "" "" ∅); obj_data := ∅ |}.
Definition sample_list : ObjectList :=
  {| list_type := "WidgetList"; list_elem_type := "Widget";
     list_gvk := mkGVK "" "" ""; list_items := [] |}.

(** The remote store holds one widget the watch has not delivered; the
    heaps hold the store, an empty widget and an empty widget list. *)
Definition sample_world : World :=
  {| informers := {[ 1%positive := sample_informer ]};
     objs := {[ 1%positive := sample_obj ]};
     lists := {[ 1%positive := sample_list ]};
     apiserver := λ req,
       if decide (req_name req = "w9") then inr (sample_widget "ops" "w9" "green")
       else inl (StatusError StatusReasonNotFound "not found");
     requests := [];
     now := 0 |}.

(** The same world once the watch of the store has caught up. *)
Definition sample_synced_world : World :=
  set_informers (insert 1%positive
    {| inf_listerWatcher := inf_listerWatcher sample_informer;
       inf_objType := inf_objType sample_informer;
       inf_resync := inf_resync sample_informer;
       items := items sample_informer;
       indexers := indexers sample_informer;
       hasSynced := true |}) sample_world.

(** The sample cache over a fallback cache that gives up on a cancelled
    context. *)
Definition sample_unready_cache : CSCache :=
  {| config := sample_config;
     informerMap := informerMap sample_cache;
     fallback :=
       {| cache_Get := cache_Get sample_fallback;
          cache_List := cache_List sample_fallback;
          cache_GetInformer := cache_GetInformer sample_fallback;
          cache_GetInformerForKind := cache_GetInformerForKind sample_fallback;
          cache_WaitForCacheSync := λ ctx w, (Ret (negb (Done ctx (now w))), w);
          cache_IndexField := cache_IndexField sample_fallback |};
     Scheme := sample_scheme |}.

Definition sample_opts : Options := {| opts_Scheme := sample_scheme; opts_Namespace := "" |}.

Definition sample_ctx : Context := {| cancelled_at := None |}.
Definition sample_cancelled : Context := {| cancelled_at := Some 0%nat |}.

(** ** More sample data *)

(** The same cache over another fallback cache. *)
Definition with_fallback (c : CSCache) (fb : Cache) : CSCache :=
  {| config := config c; informerMap := informerMap c; fallback := fb; Scheme := Scheme c |}.

(** A scheme that knows the widget types only. *)
Definition sample_strict_scheme : Scheme_ :=
  {| GVKForType := λ t,
       if decide (t = "Widget" ∨ t = "WidgetList") then inr (mkGVK "example.io" "v1" t)
       else inl (OtherError "no kind is registered for the type");
     New := λ gvk,
       if decide (Kind gvk = "Widget") then inr "Widget"
       else inl (OtherError "no kind is registered in the scheme") |}.

Definition sample_strict_cache : CSCache :=
  {| config := sample_config; informerMap := informerMap sample_cache;
     fallback := sample_fallback; Scheme := sample_strict_scheme |}.

(** A gadget and a gadget list, of a kind that has no store, at the
    second location of the heaps. *)
Definition sample_gadget : Object :=
  {| obj_type := "Gadget"; obj_gvk := mkGVK "" "" "";
     obj_meta := Some (mkMeta "" "" ∅); obj_data := ∅ |}.
Definition sample_gadget_list : ObjectList :=
  {| list_type := "GadgetList"; list_elem_type := "Gadget";
     list_gvk := mkGVK "" "" ""; list_items := [] |}.
Definition sample_gadget_world : World :=
  set_lists (insert 2%positive sample_gadget_list)
    (set_objs (insert 2%positive sample_gadget) sample_world).

(** ** Stores of objects *)

(** The object behind an item, if it is one. *)
Definition item_object (item : Item) : option Object :=
  match item with
  | IObj o => Some o
  | IRaw _ => None
  end.

Definition objects_of (l : list Item) : list Object := omap item_object l.

(** A store as a watch fills it: every item is an object with metadata,
    of one Go type. *)
Definition store_of_type (ty : GoType) (inf : Informer) : Prop :=
  ∀ key item, items inf !! key = Some item →
    ∃ o, item = IObj o ∧ is_Some (obj_meta o) ∧ obj_type o = ty.



(** The informer with the indexers replaced. *)
Definition with_indexers (inf : Informer) (ixs : gmap string IndexFunc) : Informer :=
  {| inf_listerWatcher := inf_listerWatcher inf; inf_objType := inf_objType inf;
     inf_resync := inf_resync inf; items := items inf;
     indexers := ixs; hasSynced := hasSynced inf |}.

(** The sample store before any field index is registered. *)
Definition sample_plain_informer : Informer :=
  with_indexers sample_informer {[ NamespaceIndex := MetaNamespaceIndexFunc ]}.
Definition sample_plain_world : World :=
  set_informers (insert 1%positive sample_plain_informer) sample_world.

(** ** The wait for the informers *)

(** Whether the informer behind a pointer has yet to sync. *)
Definition unsynced (w : World) (informer : loc) : bool :=
  match informers w !! informer with
  | Some inf => negb (hasSynced inf)
  | None => false
  end.

(** Every pointer of the registry leads to an informer. *)
Definition registry_valid (c : CSCache) (w : World) : Prop :=
  ∀ gvk informer, informerMap c !! gvk = Some informer → is_Some (informers w !! informer).

(** A second of sleep: the background moves the world, the clock one
    second. *)
Definition sleep_second (background : World → World) (w : World) : World :=
  set_now (S (now w)) (background w).

(** ** The constructor of the cache *)

(** filteredcache.Selector *)
Record FilterSelector : Type := mkFilterSelector {
  filter_FieldSelector : string;
  filter_LabelSelector : string
}.

(** err.Error() of an error of a collaborator. *)
Definition xerror_text (e : xerror) : string :=
  match e with
  | StatusError _ message => message
  | OtherError message => message
  end.

Section NewCSCache.

Variable RESTClientFor : Config → xerror + RESTClient.
Variable DefaultKubernetesUserAgent : string.
Variable FromUnstructured : GroupVersionKind → GoType → option xerror.

(** filteredcache.NewFilteredCacheBuilder and
    filteredcache.MultiNamespacedFilteredCacheBuilder: constructors of the
    fallback cache, black boxes. *)
Variable NewFilteredCacheBuilder :
  gmap GroupVersionKind FilterSelector → Config → Options → M (xerror + Cache).
Variable MultiNamespacedFilteredCacheBuilder :
  gmap GroupVersionKind FilterSelector → list string → Config → Options → M (xerror + Cache).

(** NewCSCache implements a customized cache with a for CS.  [Resync] is
    opts.Resync, a pointer that may be nil. *)
Definition NewCSCache (clusterGVKList : list GroupVersionKind)
    (gvkLabelMap : gmap GroupVersionKind FilterSelector) (watchNamespaceList : list string)
    (config : Config) (opts : Options) (Resync : option nat) : M (result CSCache) :=
  let resync := match Resync with
                | Some d => d
                | None => 0%nat
                end in
  r ← buildInformerMap RESTClientFor DefaultKubernetesUserAgent FromUnstructured
        config opts resync clusterGVKList;
  match r with
  | Err err => mret (Err err)
  | Ok informerMap =>
      match watchNamespaceList !! 0%nat with
      | None => panic "index out of range"
      | Some first =>
          let NewCache :=
            if decide (first = "") then NewFilteredCacheBuilder gvkLabelMap
            else MultiNamespacedFilteredCacheBuilder gvkLabelMap watchNamespaceList in
          r ← NewCache config opts;
          match r with
          | inl err =>
              mret (Err (External (OtherError
                     ("failed to init fallback cache: " +:+ xerror_text err))))
          | inr fallback =>
              mret (Ok {| config := config; informerMap := informerMap;
                          fallback := fallback; Scheme := opts_Scheme opts |})
          end
      end
  end.

End NewCSCache.

(** Builders of the sample fallback cache. *)
Definition sample_NewFilteredCacheBuilder
  : gmap GroupVersionKind FilterSelector → Config → Options → M (xerror + Cache) :=
  λ _ _ _, mret (inr sample_fallback).
Definition sample_MultiNamespacedFilteredCacheBuilder
  : gmap GroupVersionKind FilterSelector → list string → Config → Options
    → M (xerror + Cache) :=
  λ _ _ _ _, mret (inr sample_fallback).


(** A rest client that cannot be built. *)
Definition sample_failing_RESTClientFor : Config → xerror + RESTClient :=
  λ _, inl (OtherError "host must be a URL or a host:port pair").

(** The sample world with, in the store, one item that is no object. *)
Definition sample_raw_world : World :=
  set_informers (insert 1%positive
    {| inf_listerWatcher := inf_listerWatcher sample_informer;
       inf_objType := inf_objType sample_informer;
       inf_resync := inf_resync sample_informer;
       items := <[ "ops/raw" := IRaw "string" ]> (items sample_informer);
       indexers := indexers sample_informer;
       hasSynced := hasSynced sample_informer |}) sample_world.

(** A context that is cancelled two seconds from the start. *)
Definition sample_cancelled_later : Context := {| cancelled_at := Some 2%nat |}.

(** The list options of the samples: widgets by colour, in a namespace
    or in all. *)
Definition sample_by_color (color ns : string) : ListOptions :=
  {| opt_LabelSelector := None;
     opt_FieldSelector := Some [mkReq Equals "color" color];
     opt_Namespace := ns |}.
Definition sample_in_namespace (ns : string) : ListOptions :=
  {| opt_LabelSelector := None; opt_FieldSelector := None; opt_Namespace := ns |}.

(** * Properties *)

(** ** Strings *)

Lemma length_append (s t : string) :
  String.length (s +:+ t) = (String.length s + String.length t)%nat.
Proof. induction s as [|a s IH]; simpl; [reflexivity | now rewrite IH]. Qed.

Lemma substring_append_prefix (s t : string) (n : nat) :
  String.substring 0 (String.length s + n) (s +:+ t) = s +:+ String.substring 0 n t.
Proof. induction s as [|a s IH]; simpl; [reflexivity | now rewrite IH]. Qed.

Lemma append_neq_self (s : string) (a : ascii) (t : string) : s +:+ String a t ≠ s.
Proof.
  intros H. apply (f_equal String.length) in H.
  rewrite length_append in H. simpl in H. lia.
Qed.

Lemma append_inj_l (s s' t : string) : s +:+ t = s' +:+ t → s = s'.
Proof.
  revert s'. induction s as [|a s IH]; intros [|a' s'] H; simpl in H.
  - reflexivity.
  - exfalso. apply (f_equal String.length) in H.
    rewrite ?length_append in H. simpl in H. rewrite ?length_append in H. lia.
  - exfalso. apply (f_equal String.length) in H.
    rewrite ?length_append in H. simpl in H. rewrite ?length_append in H. lia.
  - injection H as -> H. f_equal. now apply IH.
Qed.

(** ** listToGVK *)

(** C1.  [listToGVK] cuts two bytes off the kind, not the four of the
    suffix: on the list identifier that the registry derives from a kind
    it returns the kind followed by the bytes Li, never the kind itself. *)
Theorem listToGVK_gvkList_keeps_Li (gvk : GroupVersionKind) :
  listToGVK (gvkList gvk)
    = Ret (mkGVK (Group gvk) (Version gvk) (Kind gvk +:+ "Li"))
  ∧ listToGVK (gvkList gvk) ≠ Ret gvk.
Proof.
  assert (E : listToGVK (gvkList gvk)
              = Ret (mkGVK (Group gvk) (Version gvk) (Kind gvk +:+ "Li"))).
  { unfold listToGVK, gvkList, slice_to. simpl.
    rewrite length_append. simpl String.length.
    destruct (Z.ltb_spec (Z.of_nat (String.length (Kind gvk) + 4) - 2) 0) as [?|_]; [lia|].
    destruct (Z.ltb_spec (Z.of_nat (String.length (Kind gvk) + 4))
                (Z.of_nat (String.length (Kind gvk) + 4) - 2)) as [?|_]; [lia|].
    replace (Z.to_nat (Z.of_nat (String.length (Kind gvk) + 4) - 2))
      with (String.length (Kind gvk) + 2)%nat by lia.
    now rewrite substring_append_prefix. }
  split; [exact E|].
  rewrite E. destruct gvk as [g v k]. simpl. intros H.
  injection H as H. now apply append_neq_self in H.
Qed.

(** The same on the list kind of a webhook configuration. *)
Example listToGVK_MutatingWebhookConfigurationList :
  listToGVK (mkGVK "admissionregistration.k8s.io" "v1" "MutatingWebhookConfigurationList")
  = Ret (mkGVK "admissionregistration.k8s.io" "v1" "MutatingWebhookConfigurationLi").
Proof. reflexivity. Qed.

(** ** kindToResource *)


(** ** The index function of indexByField *)

Section indexFunc.

Variable ns : string.
Variable rv : list string.

(** The loop on an object without a namespace, where vals is rawVals:
    before round [i] the first [i] cells hold keys, the others still the
    extracted values. *)
Lemma indexFunc_loop_shared (count i : nat) (cur : list string) :
  ns = "" →
  (i + count = length rv)%nat →
  length cur = length rv →
  (∀ j, (j < i)%nat → cur !! j = KeyToNamespacedKey "" <$> rv !! j) →
  (∀ j, (i ≤ j)%nat → cur !! j = rv !! j) →
  indexFunc_loop ns (length rv) i count {| rawVals := cur; ownVals := None |}
  = Ret {| rawVals := KeyToNamespacedKey "" <$> rv; ownVals := None |}.
Proof.
  intros Hns. revert i cur.
  induction count as [|count IH]; intros i cur Hi Hlen Hlo Hhi; simpl.
  - do 2 f_equal. apply list_eq. intros j.
    rewrite list_lookup_fmap.
    destruct (decide (j < i)%nat) as [Hj|Hj]; [now apply Hlo|].
    rewrite Hhi by lia.
    rewrite (lookup_ge_None_2 rv j) by lia. reflexivity.
  - destruct (rv !! i) as [x|] eqn:Hx;
      [|apply lookup_ge_None_1 in Hx; lia].
    rewrite Hhi, Hx by lia.
    unfold set_vals, vals. simpl.
    destruct (decide (i < length cur)%nat) as [_|?]; [|lia].
    unfold mbind, res_bind. simpl.
    destruct (decide (ns ≠ "")) as [?|_]; [congruence|].
    apply IH.
    + lia.
    + now rewrite length_insert.
    + intros j Hj. destruct (decide (j = i)) as [->|Hne].
      * rewrite list_lookup_insert_eq by lia. rewrite Hx. now subst ns.
      * rewrite list_lookup_insert_ne by lia. apply Hlo. lia.
    + intros j Hj. rewrite list_lookup_insert_ne by lia. apply Hhi. lia.
Qed.

(** The loop on a namespaced object, where vals is a slice of its own of
    twice the length: before round [i] the cells below [i] of each half
    hold the two keys of the value. *)
Lemma indexFunc_loop_own (count i : nat) (cur : list string) :
  ns ≠ "" →
  (i + count = length rv)%nat →
  length cur = (length rv * 2)%nat →
  (∀ j x, (j < i)%nat → rv !! j = Some x →
     cur !! j = Some (KeyToNamespacedKey ns x)
     ∧ cur !! (j + length rv)%nat = Some (KeyToNamespacedKey "" x)) →
  ∃ out,
    indexFunc_loop ns (length rv) i count {| rawVals := rv; ownVals := Some cur |}
    = Ret {| rawVals := rv; ownVals := Some out |}
    ∧ length out = (length rv * 2)%nat
    ∧ ∀ j x, rv !! j = Some x →
        out !! j = Some (KeyToNamespacedKey ns x)
        ∧ out !! (j + length rv)%nat = Some (KeyToNamespacedKey "" x).
Proof.
  intros Hns. revert i cur.
  induction count as [|count IH]; intros i cur Hi Hlen Hinv; simpl.
  - exists cur. split; [reflexivity|]. split; [exact Hlen|].
    intros j x Hx. apply Hinv; [|exact Hx].
    apply lookup_lt_Some in Hx. lia.
  - destruct (rv !! i) as [x|] eqn:Hx;
      [|apply lookup_ge_None_1 in Hx; lia].
    unfold set_vals at 2, vals. simpl.
    destruct (decide (i < length cur)%nat) as [_|?]; [|lia].
    unfold mbind, res_bind. simpl.
    destruct (decide (ns ≠ "")) as [_|?]; [|contradiction].
    unfold set_vals, vals. simpl.
    rewrite length_insert.
    destruct (decide (i + length rv < length cur)%nat) as [_|?]; [|lia].
    apply IH.
    + lia.
    + now rewrite !length_insert.
    + intros j y Hj Hy. destruct (decide (j = i)) as [->|Hne].
      * rewrite Hx in Hy. injection Hy as <-. split.
        -- rewrite list_lookup_insert_ne by lia.
           now rewrite list_lookup_insert_eq by lia.
        -- now rewrite list_lookup_insert_eq by (rewrite length_insert; lia).
      * destruct (Hinv j y) as [H1 H2]; [lia|exact Hy|].
        apply lookup_lt_Some in Hy.
        split.
        -- rewrite !list_lookup_insert_ne by lia. exact H1.
        -- rewrite !list_lookup_insert_ne by lia. exact H2.
Qed.

End indexFunc.

(** A list of twice the length whose two halves are known cell by cell. *)
Lemma two_halves (f g : string → string) (rv out : list string) :
  length out = (length rv * 2)%nat →
  (∀ j x, rv !! j = Some x →
     out !! j = Some (f x) ∧ out !! (j + length rv)%nat = Some (g x)) →
  out = (f <$> rv) ++ (g <$> rv).
Proof.
  intros Hlen H. apply list_eq. intros j.
  destruct (decide (j < length rv)%nat) as [Hj|Hj].
  - rewrite lookup_app_l by (rewrite length_fmap; lia).
    rewrite list_lookup_fmap.
    destruct (lookup_lt_is_Some_2 rv j Hj) as [x Hx].
    rewrite Hx. simpl. now apply H.
  - rewrite lookup_app_r by (rewrite length_fmap; lia).
    rewrite length_fmap, list_lookup_fmap.
    destruct (decide (j - length rv < length rv)%nat) as [Hj'|Hj'].
    + destruct (lookup_lt_is_Some_2 rv _ Hj') as [x Hx].
      rewrite Hx. simpl.
      destruct (H _ _ Hx) as [_ H2].
      now replace (j - length rv + length rv)%nat with j in H2 by lia.
    + rewrite (lookup_ge_None_2 rv) by lia.
      simpl. apply lookup_ge_None_2. lia.
Qed.

(** C5.  On an object that carries metadata the wrapped index function
    never fails; for an object in a namespace it yields, for each
    extracted value, the namespace-qualified key and the key of the
    all-namespaces partition (two keys for each value), and for an object
    without a namespace one key for each value, the key of the
    all-namespaces partition. *)
Theorem indexFunc_keys (extractor : Object → list string) (obj : Object) (meta : ObjectMeta) :
  obj_meta obj = Some meta →
  indexFunc extractor (IObj obj)
  = Ret (Ok (if decide (Namespace meta = "")
             then (λ v, "__all_namespaces/" +:+ v) <$> extractor obj
             else ((λ v, Namespace meta +:+ "/" +:+ v) <$> extractor obj)
                  ++ ((λ v, "__all_namespaces/" +:+ v) <$> extractor obj))).
Proof.
  intros Hmeta. unfold indexFunc, Accessor. rewrite Hmeta.
  destruct (decide (Namespace meta = "")) as [Hns|Hns].
  - rewrite (indexFunc_loop_shared (Namespace meta) (extractor obj)); try done.
    lia.
  - destruct (indexFunc_loop_own (Namespace meta) (extractor obj)
                (length (extractor obj)) 0
                (replicate (length (extractor obj) * 2) "")) as (out & E & Hlen & Hout);
      try done.
    + now rewrite length_replicate.
    + lia.
    + rewrite E. unfold mbind, res_bind. simpl. do 2 f_equal.
      unfold vals. simpl.
      apply two_halves; [exact Hlen|].
      intros j x Hx. destruct (Hout j x Hx) as [H1 H2].
      unfold KeyToNamespacedKey in H1, H2.
      destruct (decide (Namespace meta ≠ "")) as [_|?]; [|contradiction].
      destruct (decide ("" ≠ "")) as [?|_]; [contradiction|].
      split; assumption.
Qed.

(** ** List *)

Lemma requiresExactMatch_single (req : Requirement) :
  Operator_ req = Equals ∨ Operator_ req = DoubleEquals →
  requiresExactMatch [req] = (Field req, Value req, true).
Proof.
  intros Hop. unfold requiresExactMatch, Requirements. simpl.
  destruct (decide (1 ≠ 1)%nat) as [?|_]; [congruence|].
  destruct (decide (Operator_ req ≠ Equals ∧ Operator_ req ≠ DoubleEquals))
    as [[H1 H2]|_]; [|reflexivity].
  destruct Hop; contradiction.
Qed.

Lemma requiresExactMatch_unsupported (sel : Selector) :
  length (Requirements sel) ≠ 1%nat
  ∨ (∃ req, Requirements sel = [req]
            ∧ Operator_ req ≠ Equals ∧ Operator_ req ≠ DoubleEquals) →
  requiresExactMatch sel = ("", "", false).
Proof.
  unfold requiresExactMatch, Requirements.
  intros [Hlen|(req & -> & H1 & H2)].
  - destruct (decide (length sel ≠ 1%nat)); [reflexivity|contradiction].
  - simpl. destruct (decide (1 ≠ 1)%nat) as [?|_]; [congruence|].
    destruct (decide (Operator_ req ≠ Equals ∧ Operator_ req ≠ DoubleEquals))
      as [_|H]; [reflexivity|].
    exfalso. apply H. now split.
Qed.

(** C3.  When list is served by a watch-backed store and the field
    selector is not a single equality requirement (it has zero or several
    requirements, or its one requirement has an operator other than = and
    ==), List fails with the unsupported-selector error and leaves the
    world, and so the caller's list object, as it was. *)
Theorem List_unsupported_selector (c : CSCache) (ctx : Context) (lst : loc)
    (listOpts : ListOptions) (w : World) (l : ObjectList) (gvk : GroupVersionKind)
    (informer : loc) (fieldSelector : Selector) :
  lists w !! lst = Some l →
  GVKForType (Scheme c) (list_type l) = inr gvk →
  informerMap c !! gvk = Some informer →
  opt_FieldSelector listOpts = Some fieldSelector →
  length (Requirements fieldSelector) ≠ 1%nat
  ∨ (∃ req, Requirements fieldSelector = [req]
            ∧ Operator_ req ≠ Equals ∧ Operator_ req ≠ DoubleEquals) →
  List c ctx lst listOpts w = (Ret (Some NonExactField), w).
Proof.
  intros Hl Hgvk Hinf Hfs Hbad.
  unfold List, GVKForObjectList, read_list, mbind, M_bind, mret, M_ret.
  rewrite Hl, Hgvk. simpl. rewrite Hinf.
  unfold List_candidates. rewrite Hfs.
  now rewrite (requiresExactMatch_unsupported _ Hbad).
Qed.

(** The code's candidates are those of the specification. *)
Lemma List_candidates_spec (informer : loc) (listOpts : ListOptions) (w : World)
    (inf : Informer) :
  informers w !! informer = Some inf →
  List_candidates informer listOpts w = (Ret (spec_candidates inf listOpts), w).
Proof.
  intros Hinf. unfold List_candidates, spec_candidates.
  destruct (opt_FieldSelector listOpts) as [fs|].
  - destruct fs as [|req [|req' fs]].
    + reflexivity.
    + destruct (bool_decide (Operator_ req = Equals ∨ Operator_ req = DoubleEquals))
        eqn:Hop.
      * apply bool_decide_eq_true in Hop.
        rewrite (requiresExactMatch_single _ Hop). simpl.
        unfold read_informer, mbind, M_bind, mret, M_ret. rewrite Hinf.
        unfold KeyToNamespacedKey, FieldIndexName, allNamespacesNamespace.
        destruct (decide (opt_Namespace listOpts ≠ "")),
                 (decide (opt_Namespace listOpts = "")); try contradiction;
          reflexivity.
      * apply bool_decide_eq_false in Hop.
        rewrite requiresExactMatch_unsupported; [reflexivity|].
        right. exists req. split; [reflexivity|].
        split; intros H; apply Hop; [now left | now right].
    + rewrite requiresExactMatch_unsupported; [reflexivity|].
      left. simpl. lia.
  - unfold read_informer, mbind, M_bind, mret, M_ret.
    destruct (decide (opt_Namespace listOpts ≠ "")),
             (decide (opt_Namespace listOpts = "")); try contradiction;
      now rewrite Hinf.
Qed.

(** The two tests of the loop, taken together, are the post-filter. *)
Lemma post_filter_choice {A} (listOpts : ListOptions) (meta : ObjectMeta) (X Y : A) :
  (if decide ((if decide (opt_Namespace listOpts ≠ "")
               then opt_Namespace listOpts else "") ≠ ""
              ∧ (if decide (opt_Namespace listOpts ≠ "")
                 then opt_Namespace listOpts else "") ≠ Namespace meta)
   then X
   else if match opt_LabelSelector listOpts with
           | Some sel => negb (sel (Labels meta))
           | None => false
           end
        then X else Y)
  = if (if decide (opt_Namespace listOpts = "") then true
        else bool_decide (Namespace meta = opt_Namespace listOpts))
       && match opt_LabelSelector listOpts with
          | Some sel => sel (Labels meta)
          | None => true
          end
    then Y else X.
Proof.
  destruct (decide (opt_Namespace listOpts ≠ "")) as [Hns|Hns].
  - destruct (decide (opt_Namespace listOpts = "")) as [?|_]; [contradiction|].
    destruct (decide (opt_Namespace listOpts ≠ ""
                      ∧ opt_Namespace listOpts ≠ Namespace meta)) as [[_ Hne]|Hok].
    + now rewrite bool_decide_eq_false_2 by congruence.
    + rewrite bool_decide_eq_true_2.
      * simpl. destruct (opt_LabelSelector listOpts) as [sel|]; [|reflexivity].
        now destruct (sel (Labels meta)).
      * destruct (decide (Namespace meta = opt_Namespace listOpts)) as [E|E];
          [exact E|].
        exfalso. apply Hok. split; congruence.
  - destruct (decide (opt_Namespace listOpts = "")) as [_|Hne];
      [|exfalso; apply Hns; exact Hne].
    destruct (decide ("" ≠ "" ∧ "" ≠ Namespace meta)) as [[? _]|_]; [contradiction|].
    simpl. destruct (opt_LabelSelector listOpts) as [sel|]; [|reflexivity].
    now destruct (sel (Labels meta)).
Qed.

Lemma spec_post_filter_meta (listOpts : ListOptions) (o : Object) (meta : ObjectMeta) :
  obj_meta o = Some meta →
  spec_post_filter listOpts o
  = (if decide (opt_Namespace listOpts = "") then true
     else bool_decide (Namespace meta = opt_Namespace listOpts))
    && match opt_LabelSelector listOpts with
       | Some sel => sel (Labels meta)
       | None => true
       end.
Proof. intros H. unfold spec_post_filter. now rewrite H. Qed.

(** The loop keeps the candidates that pass the post-filter, in order,
    each stamped with what listToGVK makes of the list's kind. *)
Lemma List_loop_spec (gvk k : GroupVersionKind) (listOpts : ListOptions)
    (cands acc : list Object) :
  listToGVK gvk = Ret k →
  Forall (λ o, is_Some (obj_meta o)) cands →
  List_loop gvk listOpts (opt_LabelSelector listOpts) (IObj <$> cands) acc
  = Ret (Ok (acc ++ ((λ o, SetGroupVersionKind o k)
                       <$> filter (λ o, spec_post_filter listOpts o = true) cands))).
Proof.
  intros Hk Hall. revert acc.
  induction Hall as [|o cands [meta Hmeta] _ IH]; intros acc.
  - simpl. now rewrite app_nil_r.
  - rewrite fmap_cons. simpl List_loop. unfold Accessor. rewrite Hmeta.
    rewrite post_filter_choice, <- (spec_post_filter_meta _ _ _ Hmeta).
    rewrite filter_cons.
    destruct (decide (spec_post_filter listOpts o = true)) as [Hf|Hf].
    + rewrite Hf, Hk. unfold mbind, res_bind. rewrite IH.
      rewrite fmap_cons. unfold DeepCopyObject.
      now rewrite <- app_assoc.
    + apply not_true_is_false in Hf. rewrite Hf. apply IH.
Qed.

Lemma forallb_fits (ty : GoType) (k : GroupVersionKind) (l : list Object) :
  Forall (λ o, obj_type o = ty) l →
  forallb (λ o, AssignableTo (obj_type o) ty) ((λ o, SetGroupVersionKind o k) <$> l) = true.
Proof.
  induction 1 as [|o l Ho _ IH]; [reflexivity|].
  rewrite fmap_cons. cbn [forallb]. rewrite IH.
  unfold AssignableTo. simpl. now rewrite bool_decide_eq_true_2.
Qed.

(** C4.  List on a kind served by a watch-backed store, with a supported
    selector: the candidates are those of the stated precedence (field
    index under the namespace-qualified or the all-namespaces key,
    namespace index, whole store), and the list object receives exactly
    the candidates that pass the post-filter (requested namespace, label
    selector), in order, each stamped with what listToGVK makes of the
    list kind. *)
Theorem List_selection_and_post_filter (c : CSCache) (ctx : Context) (lst : loc)
    (listOpts : ListOptions) (w : World) (l : ObjectList) (gvk k : GroupVersionKind)
    (informer : loc) (inf : Informer) (cands : list Object) :
  lists w !! lst = Some l →
  GVKForType (Scheme c) (list_type l) = inr gvk →
  informerMap c !! gvk = Some informer →
  informers w !! informer = Some inf →
  spec_candidates inf listOpts = Ok (IObj <$> cands) →
  Forall (λ o, is_Some (obj_meta o) ∧ obj_type o = list_elem_type l) cands →
  listToGVK gvk = Ret k →
  List_candidates informer listOpts w = (Ret (Ok (IObj <$> cands)), w)
  ∧ List c ctx lst listOpts w
    = (Ret None,
       set_lists (insert lst
         (with_items l ((λ o, SetGroupVersionKind o k)
                          <$> filter (λ o, spec_post_filter listOpts o = true) cands))) w).
Proof.
  intros Hl Hgvk Him Hinf Hc Hall Hk.
  assert (Hcand : List_candidates informer listOpts w = (Ret (Ok (IObj <$> cands)), w)).
  { rewrite (List_candidates_spec _ _ _ _ Hinf). now rewrite Hc. }
  split; [exact Hcand|].
  unfold List, GVKForObjectList. unfold read_list at 1.
  unfold mbind, M_bind, mret, M_ret.
  rewrite Hl, Hgvk. simpl. rewrite Him, Hcand.
  unfold lift_res.
  rewrite (List_loop_spec gvk k listOpts cands [] Hk)
    by (eapply Forall_impl; [exact Hall | now intros o [H _]]).
  simpl. unfold SetList, read_list, mbind, M_bind, mret, M_ret. rewrite Hl.
  rewrite forallb_fits; [reflexivity|].
  apply list.Forall_forall. intros o Ho.
  apply list_elem_of_filter in Ho. destruct Ho as [_ Ho].
  rewrite list.Forall_forall in Hall. now apply Hall.
Qed.

(** ** Get *)

Lemma AssignableTo_refl (t : GoType) : AssignableTo t t = true.
Proof. unfold AssignableTo. now apply bool_decide_eq_true_2. Qed.

Lemma same_but_obj_refl (obj : loc) (w : World) : same_but_obj obj w w.
Proof. repeat split. Qed.

Lemma same_but_obj_trans (obj : loc) (w1 w2 w3 : World) :
  same_but_obj obj w1 w2 → same_but_obj obj w2 w3 → same_but_obj obj w1 w3.
Proof.
  intros (A1 & A2 & A3 & A4 & A5) (B1 & B2 & B3 & B4 & B5).
  repeat split; try congruence.
  intros l Hl. rewrite B3, A3; auto.
Qed.

Lemma same_but_obj_write (obj : loc) (o : Object) (w : World) :
  same_but_obj obj w (set_objs (insert obj o) w).
Proof.
  repeat split. intros l Hl. simpl. now rewrite lookup_insert_ne.
Qed.

Lemma same_but_obj_log (obj : loc) (req : Request) (w : World) :
  same_but_obj obj w (log_request req w).
Proof. repeat split. Qed.

Lemma copy_into_frame (obj : loc) (item : Object) (gvk : GroupVersionKind) (w : World) :
  same_but_obj obj w (copy_into obj item gvk w).2
  ∧ requests (copy_into obj item gvk w).2 = requests w
  ∧ ∀ had asked, (copy_into obj item gvk w).1 ≠ Ret (Some (TypeMismatch had asked)).
Proof.
  unfold copy_into, reflect_Set, obj_SetGroupVersionKind, read_obj, write_obj,
    panic, mbind, M_bind, mret, M_ret.
  destruct (objs w !! obj) as [o|] eqn:Ho; simpl.
  - destruct (AssignableTo (obj_type item) (obj_type o)); simpl.
    + rewrite lookup_insert_eq. simpl. split; [|split; [reflexivity|discriminate]].
      eapply same_but_obj_trans; apply same_but_obj_write.
    + split; [apply same_but_obj_refl|]. split; [reflexivity|discriminate].
  - split; [apply same_but_obj_refl|]. split; [reflexivity|discriminate].
Qed.

Lemma copy_into_ok (obj : loc) (o item : Object) (gvk : GroupVersionKind) (w : World) :
  objs w !! obj = Some o →
  obj_type item = obj_type o →
  copy_into obj item gvk w
  = (Ret None, set_objs (insert obj (SetGroupVersionKind item gvk)) w).
Proof.
  intros Ho Hty.
  unfold copy_into, reflect_Set, obj_SetGroupVersionKind, read_obj, write_obj,
    panic, mbind, M_bind, mret, M_ret.
  rewrite Ho. simpl. rewrite Hty, AssignableTo_refl. simpl.
  rewrite lookup_insert_eq. simpl. f_equal.
  unfold set_objs. simpl. now rewrite insert_insert_eq.
Qed.

Lemma getFromStore_unfold (c : CSCache) (informer : loc) (key : ObjectKey) (obj : loc)
    (gvk : GroupVersionKind) (w : World) :
  getFromStore c informer key obj gvk w
  = match informers w !! informer with
    | None => (Panic "nil pointer dereference", w)
    | Some inf =>
        match items inf !! spec_lookup_key key with
        | None => (Ret (Some (NewNotFound (Group gvk) (Kind gvk) (key_String key))), w)
        | Some (IRaw ty) => (Ret (Some (NotAnObject ty)), w)
        | Some (IObj item) =>
            match objs w !! obj with
            | None => (Panic "nil pointer dereference", w)
            | Some _ => copy_into obj item gvk w
            end
        end
    end.
Proof.
  unfold getFromStore, spec_lookup_key, read_informer, GetByKey, mbind, M_bind, mret, M_ret.
  destruct (informers w !! informer) as [inf|]; [|reflexivity]. simpl.
  destruct (items inf !! _) as [[item|ty]|]; try reflexivity.
  unfold read_obj at 1. destruct (objs w !! obj) as [o|]; [|reflexivity].
  simpl. rewrite AssignableTo_refl. reflexivity.
Qed.

Section Get.

Variable RESTClientFor : Config → xerror + RESTClient.
Variable DefaultKubernetesUserAgent : string.

Local Abbreviation getClientForGVK' := (getClientForGVK RESTClientFor DefaultKubernetesUserAgent).
Local Abbreviation getFromClient' := (getFromClient RESTClientFor DefaultKubernetesUserAgent).
Local Abbreviation Get' := (Get RESTClientFor DefaultKubernetesUserAgent).

Lemma getClientForGVK_error (gvk : GroupVersionKind) (config : Config) (scheme : Scheme_)
    (err : error) :
  getClientForGVK' gvk config scheme = Err err → ∃ e, err = External e.
Proof.
  unfold getClientForGVK, of_x.
  destruct (RESTClientFor _) as [e|client]; [|discriminate].
  intros H. injection H as <-. now exists e.
Qed.

Lemma getFromClient_unfold (c : CSCache) (ctx : Context) (key : ObjectKey) (obj : loc)
    (gvk : GroupVersionKind) (w : World) :
  getFromClient' c ctx key obj gvk w
  = match getClientForGVK' gvk (config c) (Scheme c) with
    | Err err => (Ret (Some err), w)
    | Ok client =>
        let req := refill_request client key (kindToResource (Kind gvk)) in
        match apiserver w req with
        | inl e => (Ret (Some (External e)), log_request req w)
        | inr result =>
            match objs w !! obj with
            | None => (Panic "nil pointer dereference", log_request req w)
            | Some _ => copy_into obj result gvk (log_request req w)
            end
        end
    end.
Proof.
  unfold getFromClient, refill_request, rest_Get, mbind, M_bind, mret, M_ret.
  destruct (getClientForGVK' gvk (config c) (Scheme c)) as [client|err]; [|reflexivity].
  simpl. destruct (apiserver w _) as [e|result]; simpl.
  - destruct e as [[|reason] message|message]; reflexivity.
  - unfold read_obj at 1. simpl.
    destruct (objs w !! obj) as [o|]; [|reflexivity].
    simpl. rewrite AssignableTo_refl. reflexivity.
Qed.

Lemma Get_routed (c : CSCache) (ctx : Context) (key : ObjectKey) (obj : loc) (w : World)
    (o : Object) (gvk : GroupVersionKind) (informer : loc) :
  objs w !! obj = Some o →
  GVKForType (Scheme c) (obj_type o) = inr gvk →
  informerMap c !! gvk = Some informer →
  Get' c ctx key obj w
  = match getFromStore c informer key obj gvk w with
    | (Ret None, w') => (Ret None, w')
    | (Ret (Some _), w') => getFromClient' c ctx key obj gvk w'
    | (Panic msg, w') => (Panic msg, w')
    end.
Proof.
  intros Ho Hgvk Him.
  unfold Get, GVKForObject, read_obj, mbind, M_bind, mret, M_ret.
  rewrite Ho, Hgvk. simpl. rewrite Him.
  destruct (getFromStore c informer key obj gvk w) as [[[e|]|msg] w']; try reflexivity.
  destruct (getFromClient' c ctx key obj gvk w') as [[[e'|]|msg] w'']; reflexivity.
Qed.

Lemma Get_miss (c : CSCache) (ctx : Context) (key : ObjectKey) (obj : loc) (w : World)
    (o : Object) (gvk : GroupVersionKind) (informer : loc) (inf : Informer) :
  objs w !! obj = Some o →
  GVKForType (Scheme c) (obj_type o) = inr gvk →
  informerMap c !! gvk = Some informer →
  informers w !! informer = Some inf →
  items inf !! spec_lookup_key key = None →
  Get' c ctx key obj w = getFromClient' c ctx key obj gvk w.
Proof.
  intros Ho Hgvk Him Hinf Hmiss.
  rewrite (Get_routed _ _ _ _ _ _ _ _ Ho Hgvk Him).
  now rewrite getFromStore_unfold, Hinf, Hmiss.
Qed.

(** C6.  A Get served by a watch-backed store whose snapshot table lacks
    the key goes to the remote store and, whatever the outcome (a value,
    an error, a panic), leaves every informer (snapshot tables and
    indices) and every list object as it was; of the objects only the
    caller's may have changed. *)
Theorem Get_miss_keeps_store (c : CSCache) (ctx : Context) (key : ObjectKey) (obj : loc)
    (w : World) (o : Object) (gvk : GroupVersionKind) (informer : loc) (inf : Informer) :
  objs w !! obj = Some o →
  GVKForType (Scheme c) (obj_type o) = inr gvk →
  informerMap c !! gvk = Some informer →
  informers w !! informer = Some inf →
  items inf !! spec_lookup_key key = None →
  informers (Get' c ctx key obj w).2 = informers w
  ∧ lists (Get' c ctx key obj w).2 = lists w
  ∧ ∀ l, l ≠ obj → objs (Get' c ctx key obj w).2 !! l = objs w !! l.
Proof.
  intros Ho Hgvk Him Hinf Hmiss.
  rewrite (Get_miss _ _ _ _ _ _ _ _ _ Ho Hgvk Him Hinf Hmiss).
  rewrite getFromClient_unfold.
  assert (S : same_but_obj obj w
     (match getClientForGVK' gvk (config c) (Scheme c) with
      | Err err => (Ret (Some err), w)
      | Ok client =>
          let req := refill_request client key (kindToResource (Kind gvk)) in
          match apiserver w req with
          | inl e => (Ret (Some (External e)), log_request req w)
          | inr result =>
              match objs w !! obj with
              | None => (Panic "nil pointer dereference", log_request req w)
              | Some _ => copy_into obj result gvk (log_request req w)
              end
          end
      end).2).
  { destruct (getClientForGVK' gvk (config c) (Scheme c)) as [client|err];
      [|apply same_but_obj_refl].
    simpl. destruct (apiserver w _) as [e|result]; [apply same_but_obj_log|].
    rewrite Ho.
    eapply same_but_obj_trans; [apply same_but_obj_log|].
    apply copy_into_frame. }
  destruct S as (S1 & S2 & S3 & _). repeat split; assumption.
Qed.



(** C9.  The guard before the copy compares the type of the caller's
    object with itself, so it never fires: neither getFromStore nor
    getFromClient ever returns the cache-had-type error, whatever the
    types of the cached or remote item and of the caller's object. *)
Theorem type_guard_never_fires (c : CSCache) (ctx : Context) (informer : loc)
    (key : ObjectKey) (obj : loc) (gvk : GroupVersionKind) (w : World)
    (had asked : string) :
  (getFromStore c informer key obj gvk w).1 ≠ Ret (Some (TypeMismatch had asked))
  ∧ (getFromClient' c ctx key obj gvk w).1 ≠ Ret (Some (TypeMismatch had asked)).
Proof.
  split.
  - rewrite getFromStore_unfold.
    destruct (informers w !! informer) as [inf|]; [|discriminate].
    destruct (items inf !! _) as [[item|ty]|]; try discriminate.
    destruct (objs w !! obj); [apply copy_into_frame|discriminate].
  - rewrite getFromClient_unfold.
    destruct (getClientForGVK' gvk (config c) (Scheme c)) as [client|err] eqn:Hcl.
    + simpl. destruct (apiserver w _) as [e|result]; [discriminate|].
      destruct (objs w !! obj); [apply copy_into_frame|discriminate].
    + apply getClientForGVK_error in Hcl. destruct Hcl as [e ->]. discriminate.
Qed.

End Get.

(** ** buildInformerMap *)

Lemma gvkList_neq (gvk : GroupVersionKind) : gvkList gvk ≠ gvk.
Proof.
  destruct gvk as [g v k]. unfold gvkList. simpl. intros H.
  injection H as H. now apply append_neq_self in H.
Qed.

Lemma gvkList_inj (g g' : GroupVersionKind) : gvkList g = gvkList g' → g = g'.
Proof.
  destruct g as [a b k], g' as [a' b' k']. unfold gvkList. simpl.
  intros H. injection H as -> -> H. f_equal. now apply append_inj_l in H.
Qed.

Section buildInformerMap.

Variable RESTClientFor : Config → xerror + RESTClient.
Variable DefaultKubernetesUserAgent : string.
Variable FromUnstructured : GroupVersionKind → GoType → option xerror.
Variable config : Config.
Variable opts : Options.
Variable resync : nat.

Local Abbreviation getClient' :=
  (getClientForGVK RESTClientFor DefaultKubernetesUserAgent).
Local Abbreviation loop' :=
  (buildInformerMap_loop RESTClientFor DefaultKubernetesUserAgent FromUnstructured
     config opts resync).
Local Abbreviation resolves' :=
  (resolves RESTClientFor DefaultKubernetesUserAgent FromUnstructured config opts).

(** The client depends on the group and the version of the kind only. *)
Lemma getClientForGVK_gvkList (gvk : GroupVersionKind) (scheme : Scheme_) :
  getClient' (gvkList gvk) config scheme = getClient' gvk config scheme.
Proof. reflexivity. Qed.

(** One round of the loop for a kind that resolves. *)
Lemma buildInformerMap_loop_cons (gvk : GroupVersionKind) (rest : list GroupVersionKind)
    (m : gmap GroupVersionKind loc) (w : World) (client : RESTClient) (typed : GoType) :
  getClient' gvk config (opts_Scheme opts) = Ok client →
  New (opts_Scheme opts) gvk = inr typed →
  FromUnstructured gvk typed = None →
  loop' (gvk :: rest) m w
  = loop' rest
      (<[gvkList gvk := fresh (dom (informers w))]>
         (<[gvk := fresh (dom (informers w))]> m))
      (set_informers
         (insert (fresh (dom (informers w)))
            (new_informer client (kindToResource (Kind gvk)) (opts_Namespace opts)
               typed resync)) w).
Proof.
  intros Hcl Hnew Hconv. simpl. rewrite Hcl, Hnew. simpl. rewrite Hconv.
  reflexivity.
Qed.

Lemma resolves_true (gvk : GroupVersionKind) :
  resolves' gvk = true →
  ∃ client typed,
    getClient' gvk config (opts_Scheme opts) = Ok client
    ∧ New (opts_Scheme opts) gvk = inr typed
    ∧ FromUnstructured gvk typed = None.
Proof.
  unfold resolves.
  destruct (getClient' gvk config (opts_Scheme opts)) as [client|]; [|discriminate].
  destruct (New (opts_Scheme opts) gvk) as [|typed]; [discriminate|].
  destruct (FromUnstructured gvk typed) eqn:Hc; [discriminate|].
  intros _. now exists client, typed.
Qed.

(** A kind that does not resolve stops the loop with an error. *)
Lemma buildInformerMap_loop_stop (gvk : GroupVersionKind) (rest : list GroupVersionKind)
    (m : gmap GroupVersionKind loc) (w : World) :
  resolves' gvk = false →
  ∃ err, loop' (gvk :: rest) m w = (Ret (Err err), w).
Proof.
  unfold resolves. simpl.
  destruct (getClient' gvk config (opts_Scheme opts)) as [client|err];
    [|intros _; now exists err].
  destruct (New (opts_Scheme opts) gvk) as [e|typed]; simpl;
    [intros _; now exists (External e)|].
  destruct (FromUnstructured gvk typed) as [e|]; [|discriminate].
  intros _. now exists (External e).
Qed.

Lemma undisturbed_cons (g gvk : GroupVersionKind) (l : list GroupVersionKind) :
  undisturbed g (gvk :: l) →
  gvk ≠ gvkList g ∧ gvkList gvk ≠ g ∧ undisturbed g l.
Proof.
  intros [H1 H2]. split; [|split; [|split]].
  - intros ->. apply H1. left.
  - apply H2. left.
  - intros H. apply H1. now right.
  - intros g' Hg'. apply H2. now right.
Qed.

(** The loop on kinds that all resolve: it ends with a registry that
    keeps what it had, holds both entries of every kind of the list, and
    keeps the two entries of an undisturbed kind equal. *)
Lemma buildInformerMap_loop_ok (l : list GroupVersionKind) :
  ∀ (m : gmap GroupVersionKind loc) (w : World),
  forallb resolves' l = true →
  ∃ mf w',
    loop' l m w = (Ret (Ok mf), w')
    ∧ (∀ k, is_Some (m !! k) → is_Some (mf !! k))
    ∧ (∀ gvk, gvk ∈ l → is_Some (mf !! gvk) ∧ is_Some (mf !! gvkList gvk))
    ∧ (∀ g, undisturbed g l → m !! gvkList g = m !! g → mf !! gvkList g = mf !! g).
Proof.
  induction l as [|gvk rest IH]; intros m w Hall.
  - exists m, w. split; [reflexivity|]. split; [auto|]. split; [|auto].
    intros gvk Hin. inversion Hin.
  - simpl in Hall. apply andb_true_iff in Hall. destruct Hall as [Hgvk Hrest].
    destruct (resolves_true _ Hgvk) as (client & typed & Hcl & Hnew & Hconv).
    rewrite (buildInformerMap_loop_cons _ rest m w _ _ Hcl Hnew Hconv).
    set (i := fresh (dom (informers w))).
    set (m1 := <[gvkList gvk := i]> (<[gvk := i]> m)).
    destruct (IH m1 (set_informers
                 (insert i (new_informer client (kindToResource (Kind gvk))
                              (opts_Namespace opts) typed resync)) w) Hrest)
      as (mf & w' & E & Hkeep & Hboth & Hpair).
    exists mf, w'. split; [exact E|]. split; [|split].
    + intros k Hk. apply Hkeep. unfold m1.
      destruct (decide (gvkList gvk = k)) as [->|N1];
        [rewrite lookup_insert_eq; eauto|].
      rewrite lookup_insert_ne by exact N1.
      destruct (decide (gvk = k)) as [->|N2];
        [rewrite lookup_insert_eq; eauto|].
      now rewrite lookup_insert_ne by exact N2.
    + intros g Hin. apply elem_of_cons in Hin. destruct Hin as [->|Hin].
      * split; apply Hkeep; unfold m1.
        -- rewrite lookup_insert_ne by apply gvkList_neq.
           rewrite lookup_insert_eq. eauto.
        -- rewrite lookup_insert_eq. eauto.
      * now apply Hboth.
    + intros g Hund Hm. apply undisturbed_cons in Hund.
      destruct Hund as (N1 & N2 & Hund). apply (Hpair g Hund). unfold m1.
      destruct (decide (gvk = g)) as [->|N3].
      * rewrite lookup_insert_eq.
        rewrite lookup_insert_ne by apply gvkList_neq.
        now rewrite lookup_insert_eq.
      * rewrite lookup_insert_ne
          by (intros H; apply N3; now apply gvkList_inj).
        rewrite lookup_insert_ne by exact N1.
        rewrite lookup_insert_ne by exact N2.
        now rewrite lookup_insert_ne by exact N3.
Qed.

(** The loop on a list with a kind that does not resolve: an error, and no
    registry. *)
Lemma buildInformerMap_loop_fails (l : list GroupVersionKind) :
  ∀ (m : gmap GroupVersionKind loc) (w : World),
  forallb resolves' l = false →
  ∃ err w', loop' l m w = (Ret (Err err), w').
Proof.
  induction l as [|gvk rest IH]; intros m w Hall; [discriminate|].
  simpl in Hall. destruct (resolves' gvk) eqn:Hgvk.
  - destruct (resolves_true _ Hgvk) as (client & typed & Hcl & Hnew & Hconv).
    rewrite (buildInformerMap_loop_cons _ rest m w _ _ Hcl Hnew Hconv).
    apply IH. exact Hall.
  - destruct (buildInformerMap_loop_stop gvk rest m w Hgvk) as [err E].
    now exists err, w.
Qed.

(** Every key of a registry that the loop makes has a client. *)
Lemma buildInformerMap_loop_clients (l : list GroupVersionKind) :
  ∀ (m mf : gmap GroupVersionKind loc) (w w' : World),
  loop' l m w = (Ret (Ok mf), w') →
  (∀ k, is_Some (m !! k) → ∃ client, getClient' k config (opts_Scheme opts) = Ok client) →
  ∀ k, is_Some (mf !! k) → ∃ client, getClient' k config (opts_Scheme opts) = Ok client.
Proof.
  induction l as [|gvk rest IH]; intros m mf w w' E Hm.
  - simpl in E. injection E as <- <-. exact Hm.
  - destruct (resolves' gvk) eqn:Hgvk.
    + destruct (resolves_true _ Hgvk) as (client & typed & Hcl & Hnew & Hconv).
      rewrite (buildInformerMap_loop_cons _ rest m w _ _ Hcl Hnew Hconv) in E.
      apply (IH _ _ _ _ E). intros k Hk.
      destruct (decide (gvkList gvk = k)) as [<-|N1];
        [exists client; now rewrite getClientForGVK_gvkList|].
      rewrite lookup_insert_ne in Hk by exact N1.
      destruct (decide (gvk = k)) as [<-|N2]; [now exists client|].
      rewrite lookup_insert_ne in Hk by exact N2. now apply Hm.
    + destruct (buildInformerMap_loop_stop gvk rest m w Hgvk) as [err E'].
      rewrite E' in E. discriminate.
Qed.

(** C8, amended.  When every kind of the list resolves, buildInformerMap
    produces a registry that holds, for every kind of the list, an entry
    under the kind and an entry under its list identifier; the two are the
    same informer for every kind that is undisturbed (the list holds
    neither its list identifier nor a kind of which it is the list
    identifier).  When some kind does not resolve, buildInformerMap
    returns an error and no registry. *)
Theorem buildInformerMap_registry (clusterGVKList : list GroupVersionKind) (w : World) :
  (forallb resolves' clusterGVKList = true →
   ∃ informerMap w',
     buildInformerMap RESTClientFor DefaultKubernetesUserAgent FromUnstructured
       config opts resync clusterGVKList w = (Ret (Ok informerMap), w')
     ∧ ∀ gvk, gvk ∈ clusterGVKList →
         is_Some (informerMap !! gvk)
         ∧ is_Some (informerMap !! gvkList gvk)
         ∧ (undisturbed gvk clusterGVKList →
            informerMap !! gvkList gvk = informerMap !! gvk))
  ∧ (forallb resolves' clusterGVKList = false →
     ∃ err w',
       buildInformerMap RESTClientFor DefaultKubernetesUserAgent FromUnstructured
         config opts resync clusterGVKList w = (Ret (Err err), w')).
Proof.
  unfold buildInformerMap. split.
  - intros Hall.
    destruct (buildInformerMap_loop_ok clusterGVKList ∅ w Hall)
      as (mf & w' & E & _ & Hboth & Hpair).
    exists mf, w'. split; [exact E|]. intros gvk Hin.
    destruct (Hboth gvk Hin) as [H1 H2]. split; [exact H1|]. split; [exact H2|].
    intros Hund. apply (Hpair gvk Hund). now rewrite !lookup_empty.
  - apply buildInformerMap_loop_fails.
Qed.

(** A cache put together as NewCSCache does has a client for every kind
    of its registry. *)
Lemma constructed_cache_has_clients (clusterGVKList : list GroupVersionKind)
    (w w' : World) (c : CSCache) (gvk : GroupVersionKind) (informer : loc) :
  buildInformerMap RESTClientFor DefaultKubernetesUserAgent FromUnstructured
    config opts resync clusterGVKList w = (Ret (Ok (informerMap c)), w') →
  informerMap c !! gvk = Some informer →
  ∃ client, getClient' gvk config (opts_Scheme opts) = Ok client.
Proof.
  intros E Hk.
  apply (buildInformerMap_loop_clients clusterGVKList ∅ (informerMap c) w w' E).
  - intros k [x Hx]. now rewrite lookup_empty in Hx.
  - now exists informer.
Qed.

End buildInformerMap.


(** ** WaitForCacheSync *)

(** With the cancellation signal already fired the loop is left in its
    first round, with no look at the informers and no second passing, and
    the answer is the one of the fallback cache. *)
Lemma WaitForCacheSync_cancelled_delegates (background : World → World) (fuel : nat)
    (c : CSCache) (ctx : Context) (w : World) :
  Done ctx (now w) = true →
  WaitForCacheSync background (S fuel) c ctx w
  = match cache_WaitForCacheSync (fallback c) ctx w with
    | (Ret synced, w') => (Ret (Some synced), w')
    | (Panic msg, w') => (Panic msg, w')
    end.
Proof.
  intros Hdone.
  unfold WaitForCacheSync. simpl.
  unfold select_Done_or_After, mbind, M_bind, mret, M_ret. rewrite Hdone.
  destruct (cache_WaitForCacheSync (fallback c) ctx w) as [[synced|msg] w'];
    reflexivity.
Qed.

(** C2, amended.  When the cancellation signal has already fired,
    WaitForCacheSync stops waiting for the informers at once, whatever
    their sync state, and returns false whenever the WaitForCacheSync of
    the fallback cache returns false for that context. *)
Theorem WaitForCacheSync_cancelled (background : World → World) (fuel : nat)
    (c : CSCache) (ctx : Context) (w w' : World) :
  Done ctx (now w) = true →
  cache_WaitForCacheSync (fallback c) ctx w = (Ret false, w') →
  WaitForCacheSync background (S fuel) c ctx w = (Ret (Some false), w').
Proof.
  intros Hdone Hfb.
  rewrite (WaitForCacheSync_cancelled_delegates background fuel c ctx w Hdone).
  now rewrite Hfb.
Qed.

(** ** The definitions on the sample cluster *)

(** The widgets that List returns carry the kind WidgetLi. *)
Example List_stamps_WidgetLi :
  let out := List sample_cache sample_ctx 1%positive
               {| opt_LabelSelector := None;
                  opt_FieldSelector := Some [mkReq Equals "color" "red"];
                  opt_Namespace := "ops" |} sample_world in
  out.1 = Ret None
  ∧ (list_items <$> lists out.2 !! 1%positive)
    = Some [SetGroupVersionKind (sample_widget "ops" "w1" "red")
              (mkGVK "example.io" "v1" "WidgetLi")].
Proof. vm_compute. split; reflexivity. Qed.

(** The context is cancelled, the one informer and the fallback cache
    have synced, and WaitForCacheSync returns true, the answer of the
    fallback cache. *)
Lemma WaitForCacheSync_cancelled_returns_true :
  Done sample_cancelled (now sample_synced_world) = true
  ∧ (WaitForCacheSync sample_background 1 sample_cache sample_cancelled
       sample_synced_world).1 = Ret (Some true)
  ∧ (WaitForCacheSync sample_background 1 sample_cache sample_cancelled
       sample_synced_world).1 ≠ Ret (Some false).
Proof.
  split; [reflexivity|]. split; [reflexivity|]. vm_compute. discriminate.
Qed.

(** On a list that holds a kind and its own list identifier, both
    resolving, the registry has the entry of the kind and the entry of its
    list identifier on two different informers. *)
Lemma buildInformerMap_kind_and_its_list :
  match (buildInformerMap sample_RESTClientFor sample_userAgent sample_FromUnstructured
           sample_config sample_opts 0 [sample_gvk; gvkList sample_gvk] sample_world).1 with
  | Ret (Ok informerMap) =>
      is_Some (informerMap !! sample_gvk)
      ∧ is_Some (informerMap !! gvkList sample_gvk)
      ∧ informerMap !! gvkList sample_gvk ≠ informerMap !! sample_gvk
  | _ => False
  end.
Proof.
  vm_compute. split; [eauto|]. split; [eauto|]. discriminate.
Qed.

(** A stored item of another type than the caller's object: the guard
    lets it through and the copy panics. *)
Example getFromStore_other_type_panics :
  (getFromStore sample_cache 1%positive (mkKey "ops" "w1") 1%positive sample_gvk
     (set_objs (insert 1%positive
        {| obj_type := "Gadget"; obj_gvk := sample_gvk;
           obj_meta := Some (mkMeta "" "" ∅); obj_data := ∅ |}) sample_world)).1
  = Panic "reflect.Set: value is not assignable to type".
Proof. reflexivity. Qed.

(** ** The theorems at work on the sample cluster *)

Lemma WaitForCacheSync_cancelled_witness :
  Done sample_cancelled (now sample_world) = true
  ∧ WaitForCacheSync sample_background 1 sample_unready_cache sample_cancelled sample_world
    = (Ret (Some false), sample_world).
Proof.
  split; [reflexivity|].
  apply (WaitForCacheSync_cancelled sample_background 0 sample_unready_cache
           sample_cancelled sample_world sample_world).
  - reflexivity.
  - reflexivity.
Defined.

Lemma List_unsupported_selector_witness :
  List sample_cache sample_ctx 1%positive
    {| opt_LabelSelector := None;
       opt_FieldSelector := Some [mkReq NotEquals "color" "red"];
       opt_Namespace := "ops" |} sample_world
  = (Ret (Some NonExactField), sample_world).
Proof.
  eapply (List_unsupported_selector sample_cache sample_ctx 1%positive _ sample_world
            sample_list (gvkList sample_gvk) 1%positive [mkReq NotEquals "color" "red"]).
  - reflexivity.
  - reflexivity.
  - reflexivity.
  - reflexivity.
  - right. exists (mkReq NotEquals "color" "red").
    split; [reflexivity|]. split; discriminate.
Defined.

Lemma List_selection_and_post_filter_witness :
  let listOpts := {| opt_LabelSelector := Some (λ l, bool_decide (l !! "color" = Some "red"));
                     opt_FieldSelector := None;
                     opt_Namespace := "ops" |} in
  List sample_cache sample_ctx 1%positive listOpts sample_world
  = (Ret None,
     set_lists (insert 1%positive
       (with_items sample_list
          ((λ o, SetGroupVersionKind o (mkGVK "example.io" "v1" "WidgetLi"))
             <$> filter (λ o, spec_post_filter listOpts o = true)
                   [sample_widget "ops" "w3" "blue"; sample_widget "ops" "w1" "red"])))
       sample_world).
Proof.
  intros listOpts.
  eapply (List_selection_and_post_filter sample_cache sample_ctx 1%positive listOpts
            sample_world sample_list (gvkList sample_gvk)
            (mkGVK "example.io" "v1" "WidgetLi") 1%positive sample_informer
            [sample_widget "ops" "w3" "blue"; sample_widget "ops" "w1" "red"]).
  - reflexivity.
  - reflexivity.
  - reflexivity.
  - reflexivity.
  - vm_compute. reflexivity.
  - repeat constructor; simpl; eauto.
  - reflexivity.
Defined.

Lemma indexFunc_keys_witness :
  indexFunc sample_color (IObj (sample_widget "ops" "w1" "red"))
  = Ret (Ok ["ops/red"; "__all_namespaces/red"]).
Proof.
  rewrite (indexFunc_keys sample_color (sample_widget "ops" "w1" "red")
             (mkMeta "ops" "w1" {[ "color" := "red" ]}) eq_refl).
  reflexivity.
Defined.

Lemma Get_miss_keeps_store_witness :
  let w' := (Get sample_RESTClientFor sample_userAgent sample_cache sample_ctx (mkKey "ops" "w9")
               1%positive sample_world).2 in
  informers w' = informers sample_world
  ∧ lists w' = lists sample_world
  ∧ ∀ l, l ≠ 1%positive → objs w' !! l = objs sample_world !! l.
Proof.
  eapply (Get_miss_keeps_store sample_RESTClientFor sample_userAgent sample_cache sample_ctx
            (mkKey "ops" "w9") 1%positive sample_world sample_obj sample_gvk 1%positive
            sample_informer).
  - reflexivity.
  - reflexivity.
  - reflexivity.
  - reflexivity.
  - reflexivity.
Defined.


Lemma buildInformerMap_registry_witness :
  forallb (resolves sample_RESTClientFor sample_userAgent sample_FromUnstructured sample_config
             sample_opts) [sample_gvk] = true
  ∧ ∃ informerMap w',
      buildInformerMap sample_RESTClientFor sample_userAgent sample_FromUnstructured
        sample_config sample_opts 0 [sample_gvk] sample_world = (Ret (Ok informerMap), w')
      ∧ ∀ gvk, gvk ∈ [sample_gvk] →
          is_Some (informerMap !! gvk)
          ∧ is_Some (informerMap !! gvkList gvk)
          ∧ (undisturbed gvk [sample_gvk] →
             informerMap !! gvkList gvk = informerMap !! gvk).
Proof.
  split; [reflexivity|].
  apply (proj1 (buildInformerMap_registry sample_RESTClientFor sample_userAgent sample_FromUnstructured
                  sample_config sample_opts 0 [sample_gvk] sample_world)).
  reflexivity.
Defined.


(** * More of the read path *)

Section GetMore.

Variable RESTClientFor : Config → xerror + RESTClient.
Variable DefaultKubernetesUserAgent : string.

Local Abbreviation getClientForGVK' := (getClientForGVK RESTClientFor DefaultKubernetesUserAgent).
Local Abbreviation getFromClient' := (getFromClient RESTClientFor DefaultKubernetesUserAgent).
Local Abbreviation Get' := (Get RESTClientFor DefaultKubernetesUserAgent).

(** What getFromClient does to the world, whatever it returns. *)
Lemma getFromClient_frame (c : CSCache) (ctx : Context) (key : ObjectKey) (obj : loc)
    (gvk : GroupVersionKind) (w : World) :
  same_but_obj obj w (getFromClient' c ctx key obj gvk w).2
  ∧ (requests (getFromClient' c ctx key obj gvk w).2 = requests w
     ∨ ∃ client, requests (getFromClient' c ctx key obj gvk w).2
                 = refill_request client key (kindToResource (Kind gvk)) :: requests w)
  ∧ ∀ err, (getFromClient' c ctx key obj gvk w).1 = Ret (Some err) → ∃ e, err = External e.
Proof.
  rewrite getFromClient_unfold.
  destruct (getClientForGVK' gvk (config c) (Scheme c)) as [client|err] eqn:Hcl.
  - simpl. destruct (apiserver w _) as [e|result].
    + split; [apply same_but_obj_log|]. split; [right; now exists client|].
      intros err H. injection H as <-. now exists e.
    + destruct (objs w !! obj).
      * destruct (copy_into_frame obj result gvk
                    (log_request (refill_request client key (kindToResource (Kind gvk))) w))
          as (F & R & T).
        split; [eapply same_but_obj_trans; [apply same_but_obj_log | exact F]|].
        split; [right; exists client; exact R|].
        intros err H. exfalso. revert H.
        unfold copy_into, reflect_Set, obj_SetGroupVersionKind, read_obj, write_obj,
          panic, mbind, M_bind, mret, M_ret. simpl.
        destruct (objs w !! obj) as [o'|]; simpl; [|discriminate].
        destruct (AssignableTo (obj_type result) (obj_type o')); simpl; [|discriminate].
        rewrite lookup_insert_eq. discriminate.
      * split; [apply same_but_obj_log|]. split; [right; now exists client|].
        discriminate.
  - split; [apply same_but_obj_refl|]. split; [now left|].
    intros err' H. injection H as <-. now apply getClientForGVK_error in Hcl.
Qed.

(** What getFromStore does to the world, whatever it returns. *)
Lemma getFromStore_frame (c : CSCache) (informer : loc) (key : ObjectKey) (obj : loc)
    (gvk : GroupVersionKind) (w : World) :
  same_but_obj obj w (getFromStore c informer key obj gvk w).2
  ∧ requests (getFromStore c informer key obj gvk w).2 = requests w.
Proof.
  rewrite getFromStore_unfold.
  destruct (informers w !! informer) as [inf|];
    [|split; [apply same_but_obj_refl|reflexivity]].
  destruct (items inf !! _) as [[item|ty]|];
    try (split; [apply same_but_obj_refl|reflexivity]).
  destruct (objs w !! obj);
    [|split; [apply same_but_obj_refl|reflexivity]].
  destruct (copy_into_frame obj item gvk w) as (F & R & _). now split.
Qed.

(** X1.  A hit: when the snapshot table of the store holds an object of
    the caller's type under the key, Get copies it into the caller's
    object, stamps it with the kind, returns nil and changes nothing else;
    no request goes to the remote store. *)
Theorem Get_hit (c : CSCache) (ctx : Context) (key : ObjectKey) (obj : loc) (w : World)
    (o item : Object) (gvk : GroupVersionKind) (informer : loc) (inf : Informer) :
  objs w !! obj = Some o →
  GVKForType (Scheme c) (obj_type o) = inr gvk →
  informerMap c !! gvk = Some informer →
  informers w !! informer = Some inf →
  items inf !! spec_lookup_key key = Some (IObj item) →
  obj_type item = obj_type o →
  Get' c ctx key obj w
  = (Ret None, set_objs (insert obj (SetGroupVersionKind item gvk)) w).
Proof.
  intros Ho Hgvk Him Hinf Hitem Hty.
  rewrite (Get_routed _ _ _ _ _ _ _ _ _ _ Ho Hgvk Him).
  rewrite getFromStore_unfold, Hinf, Hitem, Ho.
  now rewrite (copy_into_ok obj o item gvk w Ho Hty).
Qed.


(** X3.  A Get served by a watch-backed store, hit or miss, leaves every
    informer, every list object and the clock as they were, changes no
    object but the caller's, and sends at most one request, for the
    resource name that kindToResource gives the kind. *)
Theorem Get_store_frame (c : CSCache) (ctx : Context) (key : ObjectKey)
    (obj : loc) (w : World) (o : Object) (gvk : GroupVersionKind) (informer : loc) :
  objs w !! obj = Some o →
  GVKForType (Scheme c) (obj_type o) = inr gvk →
  informerMap c !! gvk = Some informer →
  same_but_obj obj w (Get' c ctx key obj w).2
  ∧ (requests (Get' c ctx key obj w).2 = requests w
     ∨ ∃ client, requests (Get' c ctx key obj w).2
                 = refill_request client key (kindToResource (Kind gvk)) :: requests w).
Proof.
  intros Ho Hgvk Him.
  rewrite (Get_routed _ _ _ _ _ _ _ _ _ _ Ho Hgvk Him).
  destruct (getFromStore_frame c informer key obj gvk w) as [F R].
  destruct (getFromStore c informer key obj gvk w) as [[[e|]|msg] w'];
    simpl in F, R; try (split; [exact F | now left]).
  destruct (getFromClient_frame c ctx key obj gvk w') as (F' & R' & _).
  split; [eapply same_but_obj_trans; eassumption|].
  rewrite <- R. exact R'.
Qed.

(** X5.  On a miss, when the client for the kind cannot be built, Get
    returns the error of the construction; no request is sent and the
    world is as it was. *)
Theorem Get_miss_no_client (c : CSCache) (ctx : Context) (key : ObjectKey) (obj : loc)
    (w : World) (o : Object) (gvk : GroupVersionKind) (informer : loc) (inf : Informer)
    (err : error) :
  objs w !! obj = Some o →
  GVKForType (Scheme c) (obj_type o) = inr gvk →
  informerMap c !! gvk = Some informer →
  informers w !! informer = Some inf →
  items inf !! spec_lookup_key key = None →
  getClientForGVK' gvk (config c) (Scheme c) = Err err →
  Get' c ctx key obj w = (Ret (Some err), w).
Proof.
  intros Ho Hgvk Him Hinf Hmiss Hcl.
  rewrite (Get_miss _ _ _ _ _ _ _ _ _ _ _ Ho Hgvk Him Hinf Hmiss).
  now rewrite getFromClient_unfold, Hcl.
Qed.

(** X6.  An item of the store that is not an Object is no answer and no
    error of Get: the look into the store fails, and Get goes on to the
    remote store, whose answer it returns. *)
Theorem Get_raw_item_goes_remote (c : CSCache) (ctx : Context) (key : ObjectKey)
    (obj : loc) (w : World) (o : Object) (gvk : GroupVersionKind) (informer : loc)
    (inf : Informer) (ty : GoType) :
  objs w !! obj = Some o →
  GVKForType (Scheme c) (obj_type o) = inr gvk →
  informerMap c !! gvk = Some informer →
  informers w !! informer = Some inf →
  items inf !! spec_lookup_key key = Some (IRaw ty) →
  getFromStore c informer key obj gvk w = (Ret (Some (NotAnObject ty)), w)
  ∧ Get' c ctx key obj w = getFromClient' c ctx key obj gvk w.
Proof.
  intros Ho Hgvk Him Hinf Hitem.
  assert (E : getFromStore c informer key obj gvk w = (Ret (Some (NotAnObject ty)), w))
    by now rewrite getFromStore_unfold, Hinf, Hitem.
  split; [exact E|].
  now rewrite (Get_routed _ _ _ _ _ _ _ _ _ _ Ho Hgvk Him), E.
Qed.

End GetMore.

(** * Routing *)

Section Routing.

Variable RESTClientFor : Config → xerror + RESTClient.
Variable DefaultKubernetesUserAgent : string.

Local Abbreviation Get' := (Get RESTClientFor DefaultKubernetesUserAgent).

(** X7.  When the scheme has no kind for the type of the caller's object
    (or list), Get, List, GetInformer and IndexField return the error of
    the scheme at once: no store and no fallback cache is asked, and the
    world is as it was. *)
Theorem unresolved_type_fails_fast (c : CSCache) (ctx : Context) (key : ObjectKey)
    (obj lst : loc) (listOpts : ListOptions) (field : string)
    (extractValue : Object → list string) (w : World)
    (o : Object) (l : ObjectList) (e e' : xerror) :
  objs w !! obj = Some o →
  GVKForType (Scheme c) (obj_type o) = inl e →
  lists w !! lst = Some l →
  GVKForType (Scheme c) (list_type l) = inl e' →
  Get' c ctx key obj w = (Ret (Some (External e)), w)
  ∧ List c ctx lst listOpts w = (Ret (Some (External e')), w)
  ∧ GetInformer c ctx obj w = (Ret (Err (External e)), w)
  ∧ IndexField c ctx obj field extractValue w = (Ret (Some (External e)), w).
Proof.
  intros Ho He Hl He'.
  unfold Get, List, GetInformer, IndexField, GVKForObject, GVKForObjectList,
    read_obj, read_list, mbind, M_bind, mret, M_ret.
  rewrite Ho, Hl, He, He'. repeat split.
Qed.

(** X8.  For a kind that has no entry in the registry every read
    operation is the fallback cache's, with the same arguments. *)
Theorem unregistered_kind_passes_through (c : CSCache) (ctx : Context) (key : ObjectKey)
    (obj lst : loc) (listOpts : ListOptions) (field : string)
    (extractValue : Object → list string) (w : World)
    (o : Object) (l : ObjectList) (gvk gvk' : GroupVersionKind) :
  objs w !! obj = Some o →
  GVKForType (Scheme c) (obj_type o) = inr gvk →
  informerMap c !! gvk = None →
  lists w !! lst = Some l →
  GVKForType (Scheme c) (list_type l) = inr gvk' →
  informerMap c !! gvk' = None →
  Get' c ctx key obj w = cache_Get (fallback c) ctx key obj w
  ∧ List c ctx lst listOpts w = cache_List (fallback c) ctx lst listOpts w
  ∧ GetInformer c ctx obj w = cache_GetInformer (fallback c) ctx obj w
  ∧ GetInformerForKind c ctx gvk w = cache_GetInformerForKind (fallback c) ctx gvk w
  ∧ IndexField c ctx obj field extractValue w
    = cache_IndexField (fallback c) ctx obj field extractValue w.
Proof.
  intros Ho Hg Hm Hl Hg' Hm'.
  unfold Get, List, GetInformer, GetInformerForKind, IndexField, GVKForObject,
    GVKForObjectList, read_obj, read_list, mbind, M_bind, mret, M_ret.
  rewrite Ho, Hl, Hg, Hg'. simpl. rewrite Hm, Hm'. repeat split.
Qed.

(** X9.  For a kind that has an entry in the registry no operation asks
    the fallback cache: with any other fallback cache in its place Get,
    List, GetInformer, GetInformerForKind and IndexField do the same. *)
Theorem registered_kind_ignores_fallback (c : CSCache) (fb : Cache) (ctx : Context)
    (key : ObjectKey) (obj lst : loc) (listOpts : ListOptions) (field : string)
    (extractValue : Object → list string) (w : World)
    (o : Object) (l : ObjectList) (gvk gvk' : GroupVersionKind) (informer informer' : loc) :
  objs w !! obj = Some o →
  GVKForType (Scheme c) (obj_type o) = inr gvk →
  informerMap c !! gvk = Some informer →
  lists w !! lst = Some l →
  GVKForType (Scheme c) (list_type l) = inr gvk' →
  informerMap c !! gvk' = Some informer' →
  Get' (with_fallback c fb) ctx key obj w = Get' c ctx key obj w
  ∧ List (with_fallback c fb) ctx lst listOpts w = List c ctx lst listOpts w
  ∧ GetInformer (with_fallback c fb) ctx obj w = (Ret (Ok informer), w)
  ∧ GetInformerForKind (with_fallback c fb) ctx gvk w = (Ret (Ok informer), w)
  ∧ IndexField (with_fallback c fb) ctx obj field extractValue w
    = indexByField informer field extractValue w.
Proof.
  intros Ho Hg Hm Hl Hg' Hm'.
  unfold Get, List, GetInformer, GetInformerForKind, IndexField, GVKForObject,
    GVKForObjectList, read_obj, read_list, mbind, M_bind, mret, M_ret, with_fallback.
  simpl. rewrite Ho, Hl, Hg, Hg'. simpl. rewrite Hm, Hm'. repeat split.
Qed.

End Routing.

(** * More of List *)

Lemma List_candidates_world (informer : loc) (listOpts : ListOptions) (w : World) :
  (List_candidates informer listOpts w).2 = w.
Proof.
  unfold List_candidates, read_informer, mbind, M_bind, mret, M_ret.
  destruct (opt_FieldSelector listOpts) as [fs|].
  - destruct (requiresExactMatch fs) as [[field val] [|]]; simpl;
      [|reflexivity].
    now destruct (informers w !! informer).
  - destruct (decide (opt_Namespace listOpts ≠ ""));
      now destruct (informers w !! informer).
Qed.

(** List on a kind of the registry, from the candidates on. *)
Lemma List_routed (c : CSCache) (ctx : Context) (lst : loc) (listOpts : ListOptions)
    (w : World) (l : ObjectList) (gvk : GroupVersionKind) (informer : loc) :
  lists w !! lst = Some l →
  GVKForType (Scheme c) (list_type l) = inr gvk →
  informerMap c !! gvk = Some informer →
  List c ctx lst listOpts w
  = match (List_candidates informer listOpts w).1 with
    | Panic msg => (Panic msg, w)
    | Ret (Err err) => (Ret (Some err), w)
    | Ret (Ok objList) =>
        match List_loop gvk listOpts (opt_LabelSelector listOpts) objList [] with
        | Panic msg => (Panic msg, w)
        | Ret (Err err) => (Ret (Some err), w)
        | Ret (Ok runtimeObjList) =>
            if forallb (λ o, AssignableTo (obj_type o) (list_elem_type l)) runtimeObjList
            then (Ret None, set_lists (insert lst (with_items l runtimeObjList)) w)
            else (Ret (Some (External (OtherError "item: can't assign or convert"))), w)
        end
    end.
Proof.
  intros Hl Hgvk Him.
  unfold List, GVKForObjectList. unfold read_list at 1.
  unfold mbind, M_bind, mret, M_ret.
  rewrite Hl, Hgvk. simpl. rewrite Him.
  pose proof (List_candidates_world informer listOpts w) as Hw.
  destruct (List_candidates informer listOpts w) as [[[objList|err]|msg] w'];
    simpl in Hw; subst w'; simpl; try reflexivity.
  unfold lift_res.
  destruct (List_loop gvk listOpts (opt_LabelSelector listOpts) objList [])
    as [[out|err]|msg]; try reflexivity.
  unfold SetList, read_list, write_list, mbind, M_bind, mret, M_ret. rewrite Hl.
  now destruct (forallb _ out).
Qed.

(** X10.  List on a kind of the registry writes nothing but the items of
    the caller's list, and those only when it returns nil: on an error or
    a panic the world is as it was; no informer is ever changed and no
    request is sent. *)
Theorem List_all_or_nothing (c : CSCache) (ctx : Context) (lst : loc)
    (listOpts : ListOptions) (w : World) (l : ObjectList) (gvk : GroupVersionKind)
    (informer : loc) :
  lists w !! lst = Some l →
  GVKForType (Scheme c) (list_type l) = inr gvk →
  informerMap c !! gvk = Some informer →
  ((List c ctx lst listOpts w).1 ≠ Ret None ∧ (List c ctx lst listOpts w).2 = w)
  ∨ ∃ out, List c ctx lst listOpts w
           = (Ret None, set_lists (insert lst (with_items l out)) w).
Proof.
  intros Hl Hgvk Him.
  rewrite (List_routed _ _ _ _ _ _ _ _ Hl Hgvk Him).
  destruct (List_candidates informer listOpts w).1 as [[objList|err]|msg];
    try (left; split; [discriminate|reflexivity]).
  destruct (List_loop gvk listOpts (opt_LabelSelector listOpts) objList [])
    as [[out|err]|msg]; try (left; split; [discriminate|reflexivity]).
  destruct (forallb _ out).
  - right. now exists out.
  - left. split; [discriminate|reflexivity].
Qed.

(** The result of List from candidates that are objects of the list's
    element type. *)
Lemma List_store_result (c : CSCache) (ctx : Context) (lst : loc)
    (listOpts : ListOptions) (w : World) (l : ObjectList) (gvk k : GroupVersionKind)
    (informer : loc) (cands : list Object) :
  lists w !! lst = Some l →
  GVKForType (Scheme c) (list_type l) = inr gvk →
  informerMap c !! gvk = Some informer →
  (List_candidates informer listOpts w).1 = Ret (Ok (IObj <$> cands)) →
  Forall (λ o, is_Some (obj_meta o) ∧ obj_type o = list_elem_type l) cands →
  listToGVK gvk = Ret k →
  List c ctx lst listOpts w
  = (Ret None,
     set_lists (insert lst
       (with_items l ((λ o, SetGroupVersionKind o k)
                        <$> filter (λ o, spec_post_filter listOpts o = true) cands))) w).
Proof.
  intros Hl Hgvk Him Hc Hall Hk.
  rewrite (List_routed _ _ _ _ _ _ _ _ Hl Hgvk Him), Hc.
  rewrite (List_loop_spec gvk k listOpts cands [] Hk)
    by (eapply Forall_impl; [exact Hall | now intros o [H _]]).
  simpl. rewrite forallb_fits; [reflexivity|].
  apply list.Forall_forall. intros o Ho.
  apply list_elem_of_filter in Ho. destruct Ho as [_ Ho].
  rewrite list.Forall_forall in Hall. now apply Hall.
Qed.

(** Items of a store of objects, seen as objects. *)
Lemma StoreList_objects (ty : GoType) (inf : Informer) :
  store_of_type ty inf →
  Forall (λ item, ∃ o, item = IObj o ∧ is_Some (obj_meta o) ∧ obj_type o = ty)
    (StoreList inf).
Proof.
  intros Hst. apply list.Forall_forall. intros item Hin.
  unfold StoreList in Hin. apply list_elem_of_In, in_map_iff in Hin.
  destruct Hin as ([key item'] & <- & Hin). simpl.
  apply list_elem_of_In, elem_of_map_to_list in Hin. eapply Hst, Hin.
Qed.

Lemma items_are_objects (P : Object → Prop) (l : list Item) :
  Forall (λ item, ∃ o, item = IObj o ∧ P o) l →
  l = IObj <$> objects_of l ∧ Forall P (objects_of l).
Proof.
  induction 1 as [|item l (o & -> & Ho) _ [IH1 IH2]]; [split; [reflexivity|constructor]|].
  unfold objects_of in *. split.
  - change (IObj o :: l = IObj <$> (o :: omap item_object l)).
    rewrite fmap_cons. now f_equal.
  - change (Forall P (o :: omap item_object l)). now constructor.
Qed.

Lemma StoreList_elem (inf : Informer) (key : string) (item : Item) :
  items inf !! key = Some item → item ∈ StoreList inf.
Proof.
  intros H. unfold StoreList. apply list_elem_of_In, in_map_iff.
  exists (key, item). split; [reflexivity|].
  now apply list_elem_of_In, elem_of_map_to_list.
Qed.

Lemma elem_of_objects_of (o : Object) (l : list Item) :
  o ∈ objects_of l ↔ IObj o ∈ l.
Proof.
  unfold objects_of. rewrite list_elem_of_omap. split.
  - intros (item & Hin & Hit). destruct item as [o'|ty]; [|discriminate].
    simpl in Hit. now injection Hit as ->.
  - intros Hin. now exists (IObj o).
Qed.




(** * Field indices *)



Lemma FieldIndexName_not_NamespaceIndex (field : string) :
  FieldIndexName field ≠ NamespaceIndex.
Proof. unfold FieldIndexName, NamespaceIndex. simpl. discriminate. Qed.

(** The keys of an object with metadata. *)
Lemma indexFunc_on_object (extractor : Object → list string) (obj : Object)
    (meta : ObjectMeta) :
  obj_meta obj = Some meta →
  indexFunc extractor (IObj obj)
  = Ret (Ok (if decide (Namespace meta = "")
             then KeyToNamespacedKey "" <$> extractor obj
             else (KeyToNamespacedKey (Namespace meta) <$> extractor obj)
                  ++ (KeyToNamespacedKey "" <$> extractor obj))).
Proof.
  intros Hmeta. unfold indexFunc, Accessor. rewrite Hmeta.
  destruct (decide (Namespace meta = "")) as [Hns|Hns].
  - rewrite (indexFunc_loop_shared (Namespace meta) (extractor obj)); try done.
    lia.
  - destruct (indexFunc_loop_own (Namespace meta) (extractor obj)
                (length (extractor obj)) 0
                (replicate (length (extractor obj) * 2) "")) as (out & E & Hlen & Hout);
      try done.
    + now rewrite length_replicate.
    + lia.
    + rewrite E. unfold mbind, res_bind. simpl. do 2 f_equal.
      unfold vals. simpl. now apply two_halves.
Qed.

(** X12.  The wrapped index function never panics: every write into vals
    is in range.  It fails, with an error, exactly on what is not an
    object with metadata, and otherwise returns as many keys as values
    for an object without a namespace and twice as many for one with a
    namespace. *)
Theorem indexFunc_never_panics (extractor : Object → list string) (item : Item) :
  match item with
  | IRaw ty => indexFunc extractor item = Ret (Err (NotAnObject ty))
  | IObj o =>
      match obj_meta o with
      | None => indexFunc extractor item = Ret (Err (NotAnObject (obj_type o)))
      | Some meta =>
          ∃ keys, indexFunc extractor item = Ret (Ok keys)
                  ∧ length keys = if decide (Namespace meta = "")
                                  then length (extractor o)
                                  else (2 * length (extractor o))%nat
      end
  end.
Proof.
  destruct item as [o|ty]; [|reflexivity].
  destruct (obj_meta o) as [meta|] eqn:Hmeta.
  - rewrite (indexFunc_on_object extractor o meta Hmeta).
    eexists. split; [reflexivity|].
    destruct (decide (Namespace meta = "")).
    + now rewrite length_fmap.
    + rewrite length_app, !length_fmap. lia.
  - unfold indexFunc. now rewrite Hmeta.
Qed.

(** An object is found under the key of each of its values, in its own
    namespace and across namespaces. *)
Lemma indexed_under_key (extractor : Object → list string) (o : Object)
    (meta : ObjectMeta) (ns v : string) :
  obj_meta o = Some meta →
  v ∈ extractor o →
  ns = "" ∨ Namespace meta = ns →
  indexed_under (indexFunc extractor) (KeyToNamespacedKey ns v) (IObj o) = true.
Proof.
  intros Hmeta Hv Hns. unfold indexed_under.
  rewrite (indexFunc_on_object extractor o meta Hmeta).
  apply bool_decide_eq_true.
  destruct (decide (Namespace meta = "")) as [Hm|Hm].
  - replace ns with "" by (destruct Hns; congruence).
    now apply list_elem_of_fmap_2.
  - apply elem_of_app. destruct Hns as [->| <-].
    + right. now apply list_elem_of_fmap_2.
    + left. now apply list_elem_of_fmap_2.
Qed.


(** The candidates of a List with an equality field selector, on a store
    of objects that has the index of the field. *)
Lemma List_by_field_candidates (listOpts : ListOptions) (w : World) (informer : loc)
    (inf : Informer) (req : Requirement) (f : IndexFunc) :
  informers w !! informer = Some inf →
  opt_FieldSelector listOpts = Some [req] →
  Operator_ req = Equals ∨ Operator_ req = DoubleEquals →
  indexers inf !! FieldIndexName (Field req) = Some f →
  (List_candidates informer listOpts w).1
  = Ret (Ok (filter (λ item, indexed_under f
                      (KeyToNamespacedKey (opt_Namespace listOpts) (Value req)) item = true)
               (StoreList inf))).
Proof.
  intros Hinf Hfs Hop Hix.
  unfold List_candidates. rewrite Hfs, (requiresExactMatch_single _ Hop). simpl.
  unfold read_informer, mbind, M_bind, mret, M_ret, ByIndex. rewrite Hinf. simpl.
  now rewrite Hix.
Qed.

Lemma List_by_field_result (c : CSCache) (ctx : Context) (lst : loc)
    (listOpts : ListOptions) (w : World) (l : ObjectList) (gvk k : GroupVersionKind)
    (informer : loc) (inf : Informer) (req : Requirement) (f : IndexFunc) :
  lists w !! lst = Some l →
  GVKForType (Scheme c) (list_type l) = inr gvk →
  informerMap c !! gvk = Some informer →
  informers w !! informer = Some inf →
  indexers inf !! FieldIndexName (Field req) = Some f →
  store_of_type (list_elem_type l) inf →
  listToGVK gvk = Ret k →
  opt_FieldSelector listOpts = Some [req] →
  Operator_ req = Equals ∨ Operator_ req = DoubleEquals →
  List c ctx lst listOpts w
  = (Ret None,
     set_lists (insert lst
       (with_items l
          ((λ o, SetGroupVersionKind o k)
             <$> filter (λ o, spec_post_filter listOpts o = true)
                   (objects_of
                      (filter (λ item, indexed_under f
                                 (KeyToNamespacedKey (opt_Namespace listOpts) (Value req))
                                 item = true)
                         (StoreList inf)))))) w).
Proof.
  intros Hl Hgvk Him Hinf Hix Hst Hk Hfs Hop.
  pose proof (StoreList_objects _ _ Hst) as Hall.
  set (Q := λ item : Item,
        indexed_under f (KeyToNamespacedKey (opt_Namespace listOpts) (Value req)) item
        = true).
  assert (Hall' : Forall (λ item, ∃ o, item = IObj o
                            ∧ is_Some (obj_meta o) ∧ obj_type o = list_elem_type l)
                    (filter Q (StoreList inf))).
  { apply list.Forall_forall. intros item Hin. apply list_elem_of_filter in Hin.
    rewrite list.Forall_forall in Hall. now apply Hall. }
  destruct (items_are_objects _ _ Hall') as [E HP].
  apply List_store_result with (gvk := gvk) (informer := informer); try assumption.
  rewrite (List_by_field_candidates _ _ _ _ _ _ Hinf Hfs Hop Hix).
  fold Q. now rewrite <- E.
Qed.

(** A stored object with the value, passing the post-filter, is in the
    result of the lookup by field. *)
Lemma by_field_includes (listOpts : ListOptions) (inf : Informer)
    (extractor : Object → list string) (v : string) (k : GroupVersionKind)
    (key : string) (o : Object) :
  items inf !! key = Some (IObj o) →
  v ∈ extractor o →
  spec_post_filter listOpts o = true →
  SetGroupVersionKind o k
  ∈ (λ o, SetGroupVersionKind o k)
      <$> filter (λ o, spec_post_filter listOpts o = true)
            (objects_of
               (filter (λ item, indexed_under (indexFunc extractor)
                          (KeyToNamespacedKey (opt_Namespace listOpts) v) item = true)
                  (StoreList inf))).
Proof.
  intros Hitem Hv Hp.
  apply (list_elem_of_fmap_2 (λ o, SetGroupVersionKind o k)).
  apply list_elem_of_filter. split; [exact Hp|].
  apply elem_of_objects_of, list_elem_of_filter.
  split; [|now apply (StoreList_elem inf key)].
  unfold spec_post_filter in Hp.
  destruct (obj_meta o) as [meta|] eqn:Hmeta; [|discriminate].
  apply (indexed_under_key extractor o meta); try assumption.
  destruct (decide (opt_Namespace listOpts = "")) as [?|?]; [now left|].
  apply andb_true_iff in Hp. destruct Hp as [Hp _].
  apply bool_decide_eq_true in Hp. now right.
Qed.

(** X13.  List with an equality field selector, on a store of objects
    that has the index of the field: it returns nil, and the list
    receives every stored object that has the value among its extracted
    values, is of the requested namespace (if one is requested) and
    matches the label selector; and it receives stored objects only,
    all of the requested namespace and matching the label selector. *)
Theorem List_by_field_includes (c : CSCache) (ctx : Context) (lst : loc)
    (listOpts : ListOptions) (w : World) (l : ObjectList) (gvk k : GroupVersionKind)
    (informer : loc) (inf : Informer) (req : Requirement)
    (extractor : Object → list string) :
  lists w !! lst = Some l →
  GVKForType (Scheme c) (list_type l) = inr gvk →
  informerMap c !! gvk = Some informer →
  informers w !! informer = Some inf →
  indexers inf !! FieldIndexName (Field req) = Some (indexFunc extractor) →
  store_of_type (list_elem_type l) inf →
  listToGVK gvk = Ret k →
  opt_FieldSelector listOpts = Some [req] →
  Operator_ req = Equals ∨ Operator_ req = DoubleEquals →
  ∃ out,
    List c ctx lst listOpts w = (Ret None, set_lists (insert lst (with_items l out)) w)
    ∧ (∀ key o, items inf !! key = Some (IObj o) →
         Value req ∈ extractor o →
         spec_post_filter listOpts o = true →
         SetGroupVersionKind o k ∈ out)
    ∧ (∀ x, x ∈ out →
         ∃ key o, items inf !! key = Some (IObj o)
                  ∧ spec_post_filter listOpts o = true
                  ∧ x = SetGroupVersionKind o k).
Proof.
  intros Hl Hgvk Him Hinf Hix Hst Hk Hfs Hop.
  eexists. split.
  { exact (List_by_field_result c ctx lst listOpts w l gvk k informer inf req _
             Hl Hgvk Him Hinf Hix Hst Hk Hfs Hop). }
  split.
  - intros key o Hitem Hv Hp. now apply (by_field_includes listOpts inf extractor _ k key).
  - intros x Hx. apply list_elem_of_fmap in Hx. destruct Hx as (o & -> & Ho).
    apply list_elem_of_filter in Ho. destruct Ho as [Hp Ho].
    apply elem_of_objects_of, list_elem_of_filter in Ho. destruct Ho as [_ Ho].
    unfold StoreList in Ho. apply list_elem_of_In, in_map_iff in Ho.
    destruct Ho as ([key item] & E & Hin). simpl in E. subst item.
    apply list_elem_of_In, elem_of_map_to_list in Hin.
    now exists key, o.
Qed.



(** X15.  List with an equality field selector on a field for which no
    index was registered fails with the error of the store and leaves the
    world as it was; on a store as buildInformerMap makes it, which has
    the namespace index only, that is so for every field. *)
Theorem List_by_field_without_index (c : CSCache) (ctx : Context) (lst : loc)
    (listOpts : ListOptions) (w : World) (l : ObjectList) (gvk : GroupVersionKind)
    (informer : loc) (inf : Informer) (req : Requirement) :
  lists w !! lst = Some l →
  GVKForType (Scheme c) (list_type l) = inr gvk →
  informerMap c !! gvk = Some informer →
  informers w !! informer = Some inf →
  indexers inf = {[ NamespaceIndex := MetaNamespaceIndexFunc ]} →
  opt_FieldSelector listOpts = Some [req] →
  Operator_ req = Equals ∨ Operator_ req = DoubleEquals →
  List c ctx lst listOpts w
  = (Ret (Some (External (OtherError
       ("Index with name " +:+ FieldIndexName (Field req) +:+ " does not exist")))), w).
Proof.
  intros Hl Hgvk Him Hinf Hix Hfs Hop.
  rewrite (List_routed _ _ _ _ _ _ _ _ Hl Hgvk Him).
  unfold List_candidates. rewrite Hfs, (requiresExactMatch_single _ Hop). simpl.
  unfold read_informer, mbind, M_bind, mret, M_ret, ByIndex. rewrite Hinf. simpl.
  rewrite Hix, lookup_singleton_ne; [reflexivity|].
  intros E. symmetry in E. now apply FieldIndexName_not_NamespaceIndex in E.
Qed.


(** * More of WaitForCacheSync *)

Lemma Done_mono (ctx : Context) (t t' : nat) :
  Done ctx t = true → (t ≤ t')%nat → Done ctx t' = true.
Proof.
  unfold Done. destruct (cancelled_at ctx) as [c|]; [|discriminate].
  intros H Hle. apply bool_decide_eq_true in H. apply bool_decide_eq_true. lia.
Qed.

(** The inner loop on pointers that all lead to informers. *)
Lemma anyUnsynced_spec (infs : list loc) (currentWaiting : bool) (w : World) :
  Forall (λ informer, is_Some (informers w !! informer)) infs →
  anyUnsynced infs currentWaiting w
  = (Ret (currentWaiting || existsb (unsynced w) infs), w).
Proof.
  intros Hall. revert currentWaiting.
  induction Hall as [|informer infs [inf Hinf] _ IH]; intros cw; simpl.
  - now rewrite orb_false_r.
  - unfold read_informer, mbind, M_bind. rewrite Hinf.
    change (anyUnsynced infs (negb (hasSynced inf) || cw) w
            = (Ret (cw || (unsynced w informer || existsb (unsynced w) infs)), w)).
    rewrite IH. unfold unsynced at 2. rewrite Hinf.
    do 2 f_equal. destruct (hasSynced inf), cw; reflexivity.
Qed.

Lemma registry_pointers (c : CSCache) (w : World) :
  registry_valid c w →
  Forall (λ informer, is_Some (informers w !! informer))
    (map snd (map_to_list (informerMap c))).
Proof.
  intros Hv. apply list.Forall_forall. intros informer Hin.
  apply list_elem_of_In, in_map_iff in Hin.
  destruct Hin as ([gvk i] & <- & Hin). simpl.
  apply list_elem_of_In, elem_of_map_to_list in Hin. eapply Hv, Hin.
Qed.

Lemma registry_existsb (c : CSCache) (w : World) (gvk : GroupVersionKind) (informer : loc) :
  informerMap c !! gvk = Some informer →
  unsynced w informer = true →
  existsb (unsynced w) (map snd (map_to_list (informerMap c))) = true.
Proof.
  intros Hm Hu. apply existsb_exists. exists informer. split; [|exact Hu].
  apply in_map_iff. exists (gvk, informer). split; [reflexivity|].
  now apply list_elem_of_In, elem_of_map_to_list.
Qed.

Lemma registry_not_empty (c : CSCache) (gvk : GroupVersionKind) (informer : loc) :
  informerMap c !! gvk = Some informer → size (informerMap c) ≠ 0%nat.
Proof.
  intros Hm Hs. apply map_size_empty_iff in Hs. rewrite Hs in Hm.
  now rewrite lookup_empty in Hm.
Qed.

Section WaitMore.

Variable background : World → World.

(** One round of the loop that is not cancelled, not even during the
    second of sleep. *)
Lemma WaitForCacheSync_loop_round (fuel : nat) (c : CSCache) (ctx : Context) (w : World) :
  Done ctx (S (now w)) = false →
  registry_valid c (sleep_second background w) →
  WaitForCacheSync_loop background (S fuel) c ctx w
  = if decide (size (informerMap c) = 0%nat) then (Ret true, sleep_second background w)
    else if existsb (unsynced (sleep_second background w))
              (map snd (map_to_list (informerMap c)))
         then WaitForCacheSync_loop background fuel c ctx (sleep_second background w)
         else (Ret true, sleep_second background w).
Proof.
  intros Hnd Hv. simpl.
  assert (Hnow : Done ctx (now w) = false).
  { destruct (Done ctx (now w)) eqn:E; [|reflexivity].
    rewrite (Done_mono ctx (now w) (S (now w)) E) in Hnd by lia. discriminate. }
  unfold select_Done_or_After, mbind, M_bind, mret, M_ret.
  rewrite Hnow. simpl. fold (sleep_second background w). rewrite Hnd.
  destruct (decide (size (informerMap c) = 0%nat)); [reflexivity|].
  rewrite (anyUnsynced_spec _ false _ (registry_pointers c _ Hv)). simpl.
  now destruct (existsb _ _).
Qed.

(** X17.  Without cancellation WaitForCacheSync always sleeps a second
    before it looks at the informers: when the registry is empty, or all
    its informers have synced by then, it returns after exactly one
    second what the fallback cache answers then. *)
Theorem WaitForCacheSync_synced_after_a_second (fuel : nat) (c : CSCache)
    (ctx : Context) (w : World) :
  Done ctx (S (now w)) = false →
  registry_valid c (sleep_second background w) →
  existsb (unsynced (sleep_second background w))
    (map snd (map_to_list (informerMap c))) = false →
  WaitForCacheSync background (S fuel) c ctx w
  = match cache_WaitForCacheSync (fallback c) ctx (sleep_second background w) with
    | (Ret synced, w') => (Ret (Some synced), w')
    | (Panic msg, w') => (Panic msg, w')
    end.
Proof.
  intros Hnd Hv Hall. unfold WaitForCacheSync.
  unfold mbind at 1. unfold M_bind.
  rewrite (WaitForCacheSync_loop_round fuel c ctx w Hnd Hv), Hall.
  assert (E : (if decide (size (informerMap c) = 0%nat)
               then (Ret true, sleep_second background w)
               else (Ret true, sleep_second background w))
              = (Ret true, sleep_second background w))
    by now destruct (decide _).
  rewrite E. unfold mbind, M_bind, mret, M_ret.
  now destruct (cache_WaitForCacheSync (fallback c) ctx (sleep_second background w))
    as [[synced|msg] w'].
Qed.

(** While an informer of the registry stays unsynced and the context is
    not cancelled, the loop goes round. *)
Lemma WaitForCacheSync_loop_stuck (c : CSCache) (ctx : Context)
    (gvk : GroupVersionKind) (informer : loc) :
  informerMap c !! gvk = Some informer →
  (∀ w, registry_valid c w → unsynced w informer = true →
        registry_valid c (background w) ∧ unsynced (background w) informer = true) →
  ∀ (fuel : nat) (w : World),
  registry_valid c w → unsynced w informer = true →
  Done ctx (now w + fuel) = false →
  WaitForCacheSync_loop background fuel c ctx w
  = (Ret false, Nat.iter fuel (sleep_second background) w).
Proof.
  intros Hm Hinv. induction fuel as [|fuel IH]; intros w Hv Hu Hnd; [reflexivity|].
  destruct (Hinv w Hv Hu) as [Hv' Hu'].
  assert (Hnd1 : Done ctx (S (now w)) = false).
  { destruct (Done ctx (S (now w))) eqn:E; [|reflexivity].
    rewrite (Done_mono ctx (S (now w)) (now w + S fuel) E) in Hnd by lia.
    discriminate. }
  rewrite (WaitForCacheSync_loop_round fuel c ctx w Hnd1 Hv').
  destruct (decide (size (informerMap c) = 0%nat)) as [Hs|_];
    [now apply (registry_not_empty c gvk informer) in Hs|].
  rewrite (registry_existsb c (sleep_second background w) gvk informer Hm Hu').
  rewrite IH; try assumption.
  - now rewrite Nat.iter_succ_r.
  - simpl. replace (S (now w + fuel))%nat with (now w + S fuel)%nat by lia. exact Hnd.
Qed.

(** X18.  One informer that never syncs holds up the wait: as long as
    the context is not cancelled WaitForCacheSync does not return, however
    many rounds it is given, and the fallback cache is never asked. *)
Theorem WaitForCacheSync_held_up (c : CSCache) (ctx : Context)
    (gvk : GroupVersionKind) (informer : loc) (fuel : nat) (w : World) :
  informerMap c !! gvk = Some informer →
  (∀ w, registry_valid c w → unsynced w informer = true →
        registry_valid c (background w) ∧ unsynced (background w) informer = true) →
  registry_valid c w → unsynced w informer = true →
  Done ctx (now w + fuel) = false →
  WaitForCacheSync background fuel c ctx w
  = (Ret None, Nat.iter fuel (sleep_second background) w).
Proof.
  intros Hm Hinv Hv Hu Hnd. unfold WaitForCacheSync.
  unfold mbind at 1. unfold M_bind.
  now rewrite (WaitForCacheSync_loop_stuck c ctx gvk informer Hm Hinv fuel w Hv Hu Hnd).
Qed.

(** With an informer that never syncs the loop is left at the second of
    the cancellation. *)
Lemma WaitForCacheSync_loop_until_cancelled (c : CSCache) (ctx : Context)
    (gvk : GroupVersionKind) (informer : loc) (t : nat) :
  informerMap c !! gvk = Some informer →
  cancelled_at ctx = Some t →
  (∀ w, registry_valid c w → unsynced w informer = true →
        registry_valid c (background w) ∧ unsynced (background w) informer = true) →
  ∀ (d fuel : nat) (w : World),
  registry_valid c w → unsynced w informer = true →
  (t - now w = d)%nat → (d < fuel)%nat →
  WaitForCacheSync_loop background fuel c ctx w
  = (Ret true, Nat.iter d (sleep_second background) w).
Proof.
  intros Hm Hc Hinv. induction d as [|d IH]; intros fuel w Hv Hu Hd Hf.
  - destruct fuel as [|fuel]; [lia|]. simpl.
    unfold select_Done_or_After, mbind, M_bind, mret, M_ret.
    assert (E : Done ctx (now w) = true)
      by (unfold Done; rewrite Hc; apply bool_decide_eq_true; lia).
    now rewrite E.
  - destruct fuel as [|fuel]; [lia|].
    destruct (Hinv w Hv Hu) as [Hv' Hu'].
    destruct d as [|d'].
    + simpl. unfold select_Done_or_After, mbind, M_bind, mret, M_ret.
      assert (E : Done ctx (now w) = false)
        by (unfold Done; rewrite Hc; apply bool_decide_eq_false; lia).
      rewrite E. simpl.
      assert (E' : Done ctx (S (now w)) = true)
        by (unfold Done; rewrite Hc; apply bool_decide_eq_true; lia).
      now rewrite E'.
    + assert (Hnd1 : Done ctx (S (now w)) = false)
        by (unfold Done; rewrite Hc; apply bool_decide_eq_false; lia).
      rewrite (WaitForCacheSync_loop_round fuel c ctx w Hnd1 Hv').
      destruct (decide (size (informerMap c) = 0%nat)) as [Hs|_];
        [now apply (registry_not_empty c gvk informer) in Hs|].
      rewrite (registry_existsb c (sleep_second background w) gvk informer Hm Hu').
      rewrite (IH fuel (sleep_second background w)); try assumption.
      * now rewrite (Nat.iter_succ_r (S d')).
      * simpl. lia.
      * lia.
Qed.

(** X19.  Cancellation ends a wait that is held up: with an informer
    that never syncs and a context cancelled at second [t],
    WaitForCacheSync returns at that second, after the whole seconds of
    sleep up to it, what the fallback cache answers then. *)
Theorem WaitForCacheSync_until_cancelled (c : CSCache) (ctx : Context)
    (gvk : GroupVersionKind) (informer : loc) (t fuel : nat) (w : World) :
  informerMap c !! gvk = Some informer →
  cancelled_at ctx = Some t →
  (∀ w, registry_valid c w → unsynced w informer = true →
        registry_valid c (background w) ∧ unsynced (background w) informer = true) →
  registry_valid c w → unsynced w informer = true →
  (t - now w < fuel)%nat →
  WaitForCacheSync background fuel c ctx w
  = match cache_WaitForCacheSync (fallback c) ctx
            (Nat.iter (t - now w) (sleep_second background) w) with
    | (Ret synced, w') => (Ret (Some synced), w')
    | (Panic msg, w') => (Panic msg, w')
    end.
Proof.
  intros Hm Hc Hinv Hv Hu Hf. unfold WaitForCacheSync.
  unfold mbind at 1. unfold M_bind.
  rewrite (WaitForCacheSync_loop_until_cancelled c ctx gvk informer t Hm Hc Hinv
             (t - now w) fuel w Hv Hu eq_refl Hf).
  unfold mbind, M_bind, mret, M_ret.
  now destruct (cache_WaitForCacheSync (fallback c) ctx _) as [[synced|msg] w'].
Qed.

End WaitMore.

(** * The pure helpers *)

Lemma substring_prefix (n : nat) (s : string) :
  (n ≤ String.length s)%nat →
  String.length (String.substring 0 n s) = n
  ∧ ∃ rest, s = String.substring 0 n s +:+ rest
            ∧ String.length rest = (String.length s - n)%nat.
Proof.
  revert s. induction n as [|n IH]; intros s Hn.
  - destruct s; simpl; (split; [reflexivity|]); eexists; split; reflexivity.
  - destruct s as [|a s]; simpl in *; [lia|].
    destruct (IH s) as (Hlen & rest & E & Hr); [lia|].
    split; [now rewrite Hlen|].
    exists rest. split; [|exact Hr].
    change (String a s = String a (String.substring 0 n s +:+ rest)).
    now rewrite <- E.
Qed.

(** X20.  listToGVK panics on a kind of fewer than two bytes; on every
    other kind it keeps group and version and cuts exactly the last two
    bytes off the kind, whatever they are. *)
Theorem listToGVK_bounds (list : GroupVersionKind) :
  if decide (String.length (Kind list) < 2)%nat
  then listToGVK list = Panic "slice bounds out of range"
  else ∃ k last2,
         listToGVK list = Ret (mkGVK (Group list) (Version list) k)
         ∧ Kind list = k +:+ last2
         ∧ String.length last2 = 2%nat.
Proof.
  unfold listToGVK, slice_to.
  destruct (decide (String.length (Kind list) < 2)%nat) as [Hlt|Hge].
  - destruct (Z.ltb_spec (Z.of_nat (String.length (Kind list)) - 2) 0) as [_|?];
      [reflexivity|lia].
  - destruct (Z.ltb_spec (Z.of_nat (String.length (Kind list)) - 2) 0) as [?|_]; [lia|].
    destruct (Z.ltb_spec (Z.of_nat (String.length (Kind list)))
                (Z.of_nat (String.length (Kind list)) - 2)) as [?|_]; [lia|].
    replace (Z.to_nat (Z.of_nat (String.length (Kind list)) - 2))
      with (String.length (Kind list) - 2)%nat by lia.
    destruct (substring_prefix (String.length (Kind list) - 2) (Kind list))
      as (_ & rest & E & Hr); [lia|].
    exists (String.substring 0 (String.length (Kind list) - 2) (Kind list)), rest.
    split; [reflexivity|]. split; [exact E|]. lia.
Qed.

(** X21.  requiresExactMatch says yes exactly on a selector of one
    requirement whose operator is = or ==, and then returns the field and
    the value of that requirement; in every other case it returns empty
    strings with the no. *)
Theorem requiresExactMatch_iff (sel : Selector) (field val : string) :
  (requiresExactMatch sel = (field, val, true)
   ↔ ∃ req, Requirements sel = [req]
            ∧ (Operator_ req = Equals ∨ Operator_ req = DoubleEquals)
            ∧ Field req = field ∧ Value req = val)
  ∧ ((requiresExactMatch sel).2 = false → requiresExactMatch sel = ("", "", false)).
Proof.
  unfold Requirements. split; [split|].
  - destruct sel as [|req [|req' sel]].
    + discriminate.
    + destruct (decide (Operator_ req = Equals ∨ Operator_ req = DoubleEquals)) as [Hop|Hop].
      * rewrite (requiresExactMatch_single req Hop). intros H. injection H as <- <-.
        now exists req.
      * rewrite requiresExactMatch_unsupported; [discriminate|].
        right. exists req. split; [reflexivity|].
        split; intros H; apply Hop; [now left | now right].
    + rewrite requiresExactMatch_unsupported; [discriminate|]. left. simpl. lia.
  - intros (req & -> & Hop & <- & <-). now apply requiresExactMatch_single.
  - unfold requiresExactMatch, Requirements.
    destruct (decide (length sel ≠ 1%nat)); [reflexivity|].
    destruct sel as [|req sel]; [reflexivity|].
    destruct (decide (Operator_ req ≠ Equals ∧ Operator_ req ≠ DoubleEquals));
      [reflexivity|discriminate].
Qed.

(** * More of the construction *)

Section buildMore.

Variable RESTClientFor : Config → xerror + RESTClient.
Variable DefaultKubernetesUserAgent : string.
Variable FromUnstructured : GroupVersionKind → GoType → option xerror.
Variable config : Config.
Variable opts : Options.
Variable resync : nat.

Local Abbreviation getClient' :=
  (getClientForGVK RESTClientFor DefaultKubernetesUserAgent).
Local Abbreviation loop' :=
  (buildInformerMap_loop RESTClientFor DefaultKubernetesUserAgent FromUnstructured
     config opts resync).
Local Abbreviation resolves' :=
  (resolves RESTClientFor DefaultKubernetesUserAgent FromUnstructured config opts).
Local Abbreviation build' :=
  (buildInformerMap RESTClientFor DefaultKubernetesUserAgent FromUnstructured
     config opts resync).

(** The keys of the registry the loop makes. *)
Lemma buildInformerMap_loop_keys (l : list GroupVersionKind) :
  ∀ (m mf : gmap GroupVersionKind loc) (w w' : World),
  loop' l m w = (Ret (Ok mf), w') →
  ∀ k, is_Some (mf !! k)
       ↔ is_Some (m !! k) ∨ ∃ gvk, gvk ∈ l ∧ (k = gvk ∨ k = gvkList gvk).
Proof.
  induction l as [|gvk rest IH]; intros m mf w w' E k.
  - simpl in E. injection E as <- <-. split; [auto|].
    intros [H|(gvk & Hin & _)]; [exact H|inversion Hin].
  - destruct (resolves' gvk) eqn:Hgvk.
    + destruct (resolves_true _ _ _ _ _ _ Hgvk) as (client & typed & Hcl & Hnew & Hconv).
      rewrite (buildInformerMap_loop_cons _ _ _ _ _ _ _ rest m w _ _ Hcl Hnew Hconv) in E.
      rewrite (IH _ _ _ _ E k). split.
      * intros [Hk|(g & Hin & Hg)].
        -- destruct (decide (gvkList gvk = k)) as [<-|N1];
             [right; exists gvk; split; [left|now right]|].
           rewrite lookup_insert_ne in Hk by exact N1.
           destruct (decide (gvk = k)) as [<-|N2];
             [right; exists gvk; split; [left|now left]|].
           rewrite lookup_insert_ne in Hk by exact N2. now left.
        -- right. exists g. split; [now right|exact Hg].
      * intros [Hk|(g & Hin & Hg)].
        -- left. destruct (decide (gvkList gvk = k)) as [<-|N1];
             [rewrite lookup_insert_eq; eauto|].
           rewrite lookup_insert_ne by exact N1.
           destruct (decide (gvk = k)) as [<-|N2]; [rewrite lookup_insert_eq; eauto|].
           now rewrite lookup_insert_ne by exact N2.
        -- apply elem_of_cons in Hin. destruct Hin as [->|Hin].
           ++ left. destruct Hg as [->| ->].
              ** rewrite lookup_insert_ne by apply gvkList_neq.
                 rewrite lookup_insert_eq. eauto.
              ** rewrite lookup_insert_eq. eauto.
           ++ right. now exists g.
    + destruct (buildInformerMap_loop_stop RESTClientFor DefaultKubernetesUserAgent
                  FromUnstructured config opts resync gvk rest m w Hgvk) as [err E'].
      rewrite E' in E. discriminate.
Qed.

(** X22.  The registry that buildInformerMap returns has the kinds of
    the list and their list identifiers as its keys, and no other key. *)
Theorem buildInformerMap_keys (clusterGVKList : list GroupVersionKind)
    (informerMap : gmap GroupVersionKind loc) (w w' : World) (k : GroupVersionKind) :
  build' clusterGVKList w = (Ret (Ok informerMap), w') →
  is_Some (informerMap !! k)
  ↔ ∃ gvk, gvk ∈ clusterGVKList ∧ (k = gvk ∨ k = gvkList gvk).
Proof.
  intros E. rewrite (buildInformerMap_loop_keys clusterGVKList ∅ informerMap w w' E k).
  split; [|auto]. intros [[x Hx]|H]; [|exact H]. now rewrite lookup_empty in Hx.
Qed.

(** What the loop does to the world, and where the pointers of its
    registry lead. *)
Lemma buildInformerMap_loop_world (l : list GroupVersionKind) :
  ∀ (m : gmap GroupVersionKind loc) (w : World),
  ∃ r w',
    loop' l m w = (Ret r, w')
    ∧ objs w' = objs w ∧ lists w' = lists w ∧ requests w' = requests w
    ∧ apiserver w' = apiserver w ∧ now w' = now w
    ∧ (∀ p inf, informers w !! p = Some inf → informers w' !! p = Some inf)
    ∧ ∀ mf, r = Ok mf →
        ∀ k p, mf !! k = Some p →
          m !! k = Some p
          ∨ (informers w !! p = None
             ∧ ∃ gvk client typed,
                 gvk ∈ l ∧ (k = gvk ∨ k = gvkList gvk)
                 ∧ informers w' !! p
                   = Some (new_informer client (kindToResource (Kind gvk))
                             (opts_Namespace opts) typed resync)).
Proof.
  induction l as [|gvk rest IH]; intros m w.
  - exists (Ok m), w. simpl. repeat split; auto.
    intros mf H k p Hk. injection H as <-. now left.
  - destruct (resolves' gvk) eqn:Hgvk.
    + destruct (resolves_true _ _ _ _ _ _ Hgvk) as (client & typed & Hcl & Hnew & Hconv).
      rewrite (buildInformerMap_loop_cons _ _ _ _ _ _ _ rest m w _ _ Hcl Hnew Hconv).
      set (i := fresh (dom (informers w))).
      assert (Hi : informers w !! i = None)
        by (apply not_elem_of_dom; apply is_fresh).
      set (ni := new_informer client (kindToResource (Kind gvk)) (opts_Namespace opts)
                   typed resync).
      destruct (IH (<[gvkList gvk := i]> (<[gvk := i]> m))
                  (set_informers (insert i ni) w))
        as (r & w' & E & H1 & H2 & H3 & H4 & H5 & Hkeep & Hreg).
      exists r, w'. split; [exact E|]. simpl in H1, H2, H3, H4, H5.
      do 5 (split; [assumption|]). split.
      * intros p inf Hp. apply Hkeep. simpl.
        rewrite lookup_insert_ne; [exact Hp|]. intros ->. congruence.
      * intros mf Hr k p Hk. destruct (Hreg mf Hr k p Hk) as [Hm|(Hnone & g & cl & ty & Hin & Hg & Hp)].
        -- assert (Hnew' : informers w' !! i = Some ni)
             by (apply Hkeep; simpl; apply lookup_insert_eq).
           destruct (decide (gvkList gvk = k)) as [<-|N1].
           { rewrite lookup_insert_eq in Hm. injection Hm as <-.
             right. split; [exact Hi|]. exists gvk, client, typed.
             split; [left|]. split; [now right|exact Hnew']. }
           rewrite lookup_insert_ne in Hm by exact N1.
           destruct (decide (gvk = k)) as [<-|N2].
           { rewrite lookup_insert_eq in Hm. injection Hm as <-.
             right. split; [exact Hi|]. exists gvk, client, typed.
             split; [left|]. split; [now left|exact Hnew']. }
           rewrite lookup_insert_ne in Hm by exact N2. now left.
        -- right. split.
           ++ simpl in Hnone. destruct (decide (i = p)) as [<-|N]; [exact Hi|].
              now rewrite lookup_insert_ne in Hnone by exact N.
           ++ exists g, cl, ty. split; [now right|]. now split.
    + destruct (buildInformerMap_loop_stop RESTClientFor DefaultKubernetesUserAgent
                  FromUnstructured config opts resync gvk rest m w Hgvk) as [err E].
      exists (Err err), w. split; [exact E|]. repeat split; auto. discriminate.
Qed.


(** X24.  Every pointer of the registry that buildInformerMap returns
    leads to an informer it has just made, at a location that was free:
    the store is empty and not synced, the namespace index is its only
    index, and its subscription is for the resource name, the namespace
    and the type of a kind of the list under whose identifier or list
    identifier it is registered. *)
Theorem buildInformerMap_informers (clusterGVKList : list GroupVersionKind)
    (informerMap : gmap GroupVersionKind loc) (w w' : World)
    (k : GroupVersionKind) (p : loc) :
  build' clusterGVKList w = (Ret (Ok informerMap), w') →
  informerMap !! k = Some p →
  informers w !! p = None
  ∧ ∃ gvk client typed,
      gvk ∈ clusterGVKList ∧ (k = gvk ∨ k = gvkList gvk)
      ∧ informers w' !! p
        = Some (new_informer client (kindToResource (Kind gvk))
                  (opts_Namespace opts) typed resync).
Proof.
  intros E Hk.
  destruct (buildInformerMap_loop_world clusterGVKList ∅ w)
    as (r & w'' & E' & _ & _ & _ & _ & _ & _ & Hreg).
  unfold buildInformerMap in E. rewrite E' in E. injection E as -> ->.
  destruct (Hreg informerMap eq_refl k p Hk) as [H|H]; [|exact H].
  now rewrite lookup_empty in H.
Qed.

End buildMore.

Section NewCSCacheMore.

Variable RESTClientFor : Config → xerror + RESTClient.
Variable DefaultKubernetesUserAgent : string.
Variable FromUnstructured : GroupVersionKind → GoType → option xerror.
Variable NewFilteredCacheBuilder :
  gmap GroupVersionKind FilterSelector → Config → Options → M (xerror + Cache).
Variable MultiNamespacedFilteredCacheBuilder :
  gmap GroupVersionKind FilterSelector → list string → Config → Options → M (xerror + Cache).

Local Abbreviation NewCSCache' :=
  (NewCSCache RESTClientFor DefaultKubernetesUserAgent FromUnstructured
     NewFilteredCacheBuilder MultiNamespacedFilteredCacheBuilder).
Local Abbreviation resolves' :=
  (resolves RESTClientFor DefaultKubernetesUserAgent FromUnstructured).


(** When the first namespace of the list is the empty string the
    other namespaces play no part: NewCSCache does what it does on the
    list that holds the empty string alone. *)
Theorem NewCSCache_first_namespace_decides (clusterGVKList : list GroupVersionKind)
    (gvkLabelMap : gmap GroupVersionKind FilterSelector) (others : list string)
    (config : Config) (opts : Options) (Resync : option nat) (w : World) :
  NewCSCache' clusterGVKList gvkLabelMap ("" :: others) config opts Resync w
  = NewCSCache' clusterGVKList gvkLabelMap [""] config opts Resync w.
Proof. reflexivity. Qed.

(** X26.  A cache that NewCSCache returns carries the configuration and
    the scheme it was given, and with them a client can be built for every
    kind of its registry: on such a cache a Get that misses the store
    never fails for want of a client. *)
Theorem NewCSCache_has_clients (clusterGVKList : list GroupVersionKind)
    (gvkLabelMap : gmap GroupVersionKind FilterSelector) (watchNamespaceList : list string)
    (config0 : Config) (opts : Options) (Resync : option nat) (w w' : World)
    (c : CSCache) (gvk : GroupVersionKind) (informer : loc) :
  NewCSCache' clusterGVKList gvkLabelMap watchNamespaceList config0 opts Resync w
  = (Ret (Ok c), w') →
  informerMap c !! gvk = Some informer →
  config c = config0 ∧ Scheme c = opts_Scheme opts
  ∧ ∃ client,
      getClientForGVK RESTClientFor DefaultKubernetesUserAgent gvk (config c) (Scheme c)
      = Ok client.
Proof.
  unfold NewCSCache. unfold mbind at 1. unfold M_bind.
  set (resync := match Resync with Some d => d | None => 0%nat end).
  destruct (buildInformerMap RESTClientFor DefaultKubernetesUserAgent FromUnstructured
              config0 opts resync clusterGVKList w) as [[[m|err]|msg] w1] eqn:E;
    try discriminate.
  destruct (watchNamespaceList !! 0%nat) as [first|]; [|discriminate].
  unfold mbind, M_bind, mret, M_ret.
  destruct ((if decide (first = "") then NewFilteredCacheBuilder gvkLabelMap
             else MultiNamespacedFilteredCacheBuilder gvkLabelMap watchNamespaceList)
              config0 opts w1) as [[[e|fb]|msg] w2]; try discriminate.
  intros H Hk. injection H as <- <-. simpl in *.
  split; [reflexivity|]. split; [reflexivity|].
  apply (buildInformerMap_loop_clients RESTClientFor DefaultKubernetesUserAgent
           FromUnstructured config0 opts resync clusterGVKList ∅ m w w1 E).
  - intros k [x Hx]. now rewrite lookup_empty in Hx.
  - now exists informer.
Qed.

End NewCSCacheMore.

(** * The further theorems at work on the sample cluster *)

Lemma sample_store_of_type : store_of_type "Widget" sample_informer.
Proof.
  intros key item H. unfold sample_informer in H. simpl in H.
  apply lookup_insert_Some in H. destruct H as [[_ <-]|[_ H]];
    [eexists; repeat split; eauto|].
  apply lookup_insert_Some in H. destruct H as [[_ <-]|[_ H]];
    [eexists; repeat split; eauto|].
  apply lookup_insert_Some in H. destruct H as [[_ <-]|[_ H]];
    [eexists; repeat split; eauto|].
  now rewrite lookup_empty in H.
Qed.


Lemma sample_registry_valid (w : World) :
  is_Some (informers w !! 1%positive) → registry_valid sample_cache w.
Proof.
  intros Hw gvk informer H. unfold sample_cache in H. simpl in H.
  apply lookup_insert_Some in H. destruct H as [[_ <-]|[_ H]]; [exact Hw|].
  apply lookup_singleton_Some in H. destruct H as [_ <-]. exact Hw.
Qed.

Lemma Get_hit_witness :
  Get sample_RESTClientFor sample_userAgent sample_cache sample_ctx (mkKey "ops" "w1")
    1%positive sample_world
  = (Ret None,
     set_objs (insert 1%positive
       (SetGroupVersionKind (sample_widget "ops" "w1" "red") sample_gvk)) sample_world).
Proof.
  apply (Get_hit sample_RESTClientFor sample_userAgent sample_cache sample_ctx
           (mkKey "ops" "w1") 1%positive sample_world sample_obj
           (sample_widget "ops" "w1" "red") sample_gvk 1%positive sample_informer);
    reflexivity.
Defined.


Lemma Get_store_frame_witness :
  let w' := (Get sample_RESTClientFor sample_userAgent sample_cache sample_ctx
               (mkKey "ops" "w9") 1%positive sample_world).2 in
  same_but_obj 1%positive sample_world w'
  ∧ (requests w' = requests sample_world
     ∨ ∃ client, requests w'
                 = refill_request client (mkKey "ops" "w9")
                     (kindToResource (Kind sample_gvk)) :: requests sample_world).
Proof.
  apply (Get_store_frame sample_RESTClientFor sample_userAgent sample_cache sample_ctx
           (mkKey "ops" "w9") 1%positive sample_world sample_obj sample_gvk 1%positive);
    reflexivity.
Defined.


Lemma Get_miss_no_client_witness :
  Get sample_failing_RESTClientFor sample_userAgent sample_cache sample_ctx
    (mkKey "ops" "w9") 1%positive sample_world
  = (Ret (Some (External (OtherError "host must be a URL or a host:port pair"))),
     sample_world).
Proof.
  apply (Get_miss_no_client sample_failing_RESTClientFor sample_userAgent sample_cache
           sample_ctx (mkKey "ops" "w9") 1%positive sample_world sample_obj sample_gvk
           1%positive sample_informer); reflexivity.
Defined.

Lemma Get_raw_item_goes_remote_witness :
  getFromStore sample_cache 1%positive (mkKey "ops" "raw") 1%positive sample_gvk
    sample_raw_world
  = (Ret (Some (NotAnObject "string")), sample_raw_world)
  ∧ Get sample_RESTClientFor sample_userAgent sample_cache sample_ctx (mkKey "ops" "raw")
      1%positive sample_raw_world
    = getFromClient sample_RESTClientFor sample_userAgent sample_cache sample_ctx
        (mkKey "ops" "raw") 1%positive sample_gvk sample_raw_world.
Proof.
  eapply (Get_raw_item_goes_remote sample_RESTClientFor sample_userAgent sample_cache
            sample_ctx (mkKey "ops" "raw") 1%positive sample_raw_world sample_obj
            sample_gvk 1%positive); reflexivity.
Defined.

Lemma unresolved_type_fails_fast_witness :
  Get sample_RESTClientFor sample_userAgent sample_strict_cache sample_ctx
    (mkKey "ops" "g1") 2%positive sample_gadget_world
  = (Ret (Some (External (OtherError "no kind is registered for the type"))),
     sample_gadget_world)
  ∧ List sample_strict_cache sample_ctx 2%positive (sample_in_namespace "ops")
      sample_gadget_world
    = (Ret (Some (External (OtherError "no kind is registered for the type"))),
       sample_gadget_world)
  ∧ GetInformer sample_strict_cache sample_ctx 2%positive sample_gadget_world
    = (Ret (Err (External (OtherError "no kind is registered for the type"))),
       sample_gadget_world)
  ∧ IndexField sample_strict_cache sample_ctx 2%positive "color" sample_color
      sample_gadget_world
    = (Ret (Some (External (OtherError "no kind is registered for the type"))),
       sample_gadget_world).
Proof.
  apply (unresolved_type_fails_fast sample_RESTClientFor sample_userAgent
           sample_strict_cache sample_ctx (mkKey "ops" "g1") 2%positive 2%positive
           (sample_in_namespace "ops") "color" sample_color sample_gadget_world
           sample_gadget sample_gadget_list); reflexivity.
Defined.

Lemma unregistered_kind_passes_through_witness :
  Get sample_RESTClientFor sample_userAgent sample_cache sample_ctx (mkKey "ops" "g1")
    2%positive sample_gadget_world
  = cache_Get sample_fallback sample_ctx (mkKey "ops" "g1") 2%positive sample_gadget_world.
Proof.
  apply (unregistered_kind_passes_through sample_RESTClientFor sample_userAgent
           sample_cache sample_ctx (mkKey "ops" "g1") 2%positive 2%positive
           (sample_in_namespace "ops") "color" sample_color sample_gadget_world
           sample_gadget sample_gadget_list
           (mkGVK "example.io" "v1" "Gadget") (mkGVK "example.io" "v1" "GadgetList"));
    reflexivity.
Defined.

Lemma registered_kind_ignores_fallback_witness :
  Get sample_RESTClientFor sample_userAgent
    (with_fallback sample_cache (fallback sample_unready_cache)) sample_ctx
    (mkKey "ops" "w1") 1%positive sample_world
  = Get sample_RESTClientFor sample_userAgent sample_cache sample_ctx
      (mkKey "ops" "w1") 1%positive sample_world.
Proof.
  apply (registered_kind_ignores_fallback sample_RESTClientFor sample_userAgent
           sample_cache (fallback sample_unready_cache) sample_ctx (mkKey "ops" "w1")
           1%positive 1%positive (sample_in_namespace "ops") "color" sample_color
           sample_world sample_obj sample_list sample_gvk (gvkList sample_gvk)
           1%positive 1%positive); reflexivity.
Defined.

Lemma List_all_or_nothing_witness :
  ((List sample_cache sample_ctx 1%positive (sample_by_color "red" "ops") sample_world).1
     ≠ Ret None
   ∧ (List sample_cache sample_ctx 1%positive (sample_by_color "red" "ops")
        sample_world).2 = sample_world)
  ∨ ∃ out, List sample_cache sample_ctx 1%positive (sample_by_color "red" "ops")
             sample_world
           = (Ret None, set_lists (insert 1%positive (with_items sample_list out))
                          sample_world).
Proof.
  apply (List_all_or_nothing sample_cache sample_ctx 1%positive
           (sample_by_color "red" "ops") sample_world sample_list (gvkList sample_gvk)
           1%positive); reflexivity.
Defined.


Lemma List_by_field_includes_witness :
  ∃ out,
    List sample_cache sample_ctx 1%positive (sample_by_color "red" "") sample_world
    = (Ret None, set_lists (insert 1%positive (with_items sample_list out)) sample_world)
    ∧ SetGroupVersionKind (sample_widget "dev" "w2" "red")
        (mkGVK "example.io" "v1" "WidgetLi") ∈ out.
Proof.
  destruct (List_by_field_includes sample_cache sample_ctx 1%positive
              (sample_by_color "red" "") sample_world sample_list (gvkList sample_gvk)
              (mkGVK "example.io" "v1" "WidgetLi") 1%positive sample_informer
              (mkReq Equals "color" "red") sample_color) as (out & E & Hin & _);
    try reflexivity.
  - exact sample_store_of_type.
  - now left.
  - exists out. split; [exact E|].
    apply (Hin "dev/w2" (sample_widget "dev" "w2" "red")).
    + reflexivity.
    + vm_compute. left.
    + reflexivity.
Defined.


Lemma List_by_field_without_index_witness :
  List sample_cache sample_ctx 1%positive (sample_by_color "red" "ops") sample_plain_world
  = (Ret (Some (External (OtherError "Index with name field:color does not exist"))),
     sample_plain_world).
Proof.
  apply (List_by_field_without_index sample_cache sample_ctx 1%positive
           (sample_by_color "red" "ops") sample_plain_world sample_list
           (gvkList sample_gvk) 1%positive sample_plain_informer
           (mkReq Equals "color" "red")); try reflexivity.
  now left.
Defined.


Lemma WaitForCacheSync_synced_after_a_second_witness :
  WaitForCacheSync sample_background 1 sample_cache sample_ctx sample_synced_world
  = match cache_WaitForCacheSync (fallback sample_cache) sample_ctx
            (sleep_second sample_background sample_synced_world) with
    | (Ret synced, w') => (Ret (Some synced), w')
    | (Panic msg, w') => (Panic msg, w')
    end.
Proof.
  apply (WaitForCacheSync_synced_after_a_second sample_background 0 sample_cache
           sample_ctx sample_synced_world).
  - reflexivity.
  - apply sample_registry_valid. vm_compute. eauto.
  - reflexivity.
Defined.

Lemma WaitForCacheSync_held_up_witness :
  WaitForCacheSync sample_background 3 sample_cache sample_ctx sample_world
  = (Ret None, Nat.iter 3 (sleep_second sample_background) sample_world).
Proof.
  apply (WaitForCacheSync_held_up sample_background sample_cache sample_ctx sample_gvk
           1%positive 3 sample_world).
  - reflexivity.
  - intros w Hv Hu. now split.
  - apply sample_registry_valid. vm_compute. eauto.
  - reflexivity.
  - reflexivity.
Defined.

Lemma WaitForCacheSync_until_cancelled_witness :
  WaitForCacheSync sample_background 5 sample_cache sample_cancelled_later sample_world
  = match cache_WaitForCacheSync (fallback sample_cache) sample_cancelled_later
            (Nat.iter (2 - now sample_world) (sleep_second sample_background)
               sample_world) with
    | (Ret synced, w') => (Ret (Some synced), w')
    | (Panic msg, w') => (Panic msg, w')
    end.
Proof.
  apply (WaitForCacheSync_until_cancelled sample_background sample_cache
           sample_cancelled_later sample_gvk 1%positive 2 5 sample_world).
  - reflexivity.
  - reflexivity.
  - intros w Hv Hu. now split.
  - apply sample_registry_valid. vm_compute. eauto.
  - reflexivity.
  - simpl. lia.
Defined.

(** The registry of the one sample kind, built in the sample world. *)
Lemma sample_build :
  buildInformerMap sample_RESTClientFor sample_userAgent sample_FromUnstructured
    sample_config sample_opts 0 [sample_gvk] sample_world
  = (Ret (Ok (<[gvkList sample_gvk := 2%positive]> {[ sample_gvk := 2%positive ]})),
     set_informers (insert 2%positive (new_informer sample_client "" "" "Widget" 0))
       sample_world).
Proof.
  unfold buildInformerMap.
  rewrite (buildInformerMap_loop_cons sample_RESTClientFor sample_userAgent
             sample_FromUnstructured sample_config sample_opts 0 sample_gvk [] ∅
             sample_world sample_client "Widget" eq_refl eq_refl eq_refl).
  reflexivity.
Qed.

Lemma buildInformerMap_keys_witness :
  is_Some ((<[gvkList sample_gvk := 2%positive]> {[ sample_gvk := 2%positive ]}
            : gmap GroupVersionKind loc) !! gvkList sample_gvk)
  ↔ ∃ gvk, gvk ∈ [sample_gvk] ∧ (gvkList sample_gvk = gvk ∨ gvkList sample_gvk = gvkList gvk).
Proof.
  exact (buildInformerMap_keys sample_RESTClientFor sample_userAgent
           sample_FromUnstructured sample_config sample_opts 0 [sample_gvk]
           (<[gvkList sample_gvk := 2%positive]> {[ sample_gvk := 2%positive ]})
           sample_world
           (set_informers (insert 2%positive
              (new_informer sample_client "" "" "Widget" 0)) sample_world)
           (gvkList sample_gvk) sample_build).
Defined.

Lemma buildInformerMap_informers_witness :
  informers sample_world !! 2%positive = None
  ∧ ∃ gvk client typed,
      gvk ∈ [sample_gvk]
      ∧ (gvkList sample_gvk = gvk ∨ gvkList sample_gvk = gvkList gvk)
      ∧ informers (set_informers (insert 2%positive
                     (new_informer sample_client "" "" "Widget" 0)) sample_world)
          !! 2%positive
        = Some (new_informer client (kindToResource (Kind gvk))
                  (opts_Namespace sample_opts) typed 0).
Proof.
  exact (buildInformerMap_informers sample_RESTClientFor sample_userAgent
           sample_FromUnstructured sample_config sample_opts 0 [sample_gvk]
           (<[gvkList sample_gvk := 2%positive]> {[ sample_gvk := 2%positive ]})
           sample_world
           (set_informers (insert 2%positive
              (new_informer sample_client "" "" "Widget" 0)) sample_world)
           (gvkList sample_gvk) 2%positive sample_build (lookup_insert_eq _ _ _)).
Defined.


(** The cache that NewCSCache makes of the one sample kind. *)
Lemma sample_NewCSCache :
  NewCSCache sample_RESTClientFor sample_userAgent sample_FromUnstructured
    sample_NewFilteredCacheBuilder sample_MultiNamespacedFilteredCacheBuilder
    [sample_gvk] ∅ [""] sample_config sample_opts None sample_world
  = (Ret (Ok {| config := sample_config;
                informerMap := <[gvkList sample_gvk := 2%positive]>
                                 {[ sample_gvk := 2%positive ]};
                fallback := sample_fallback; Scheme := sample_scheme |}),
     set_informers (insert 2%positive (new_informer sample_client "" "" "Widget" 0))
       sample_world).
Proof.
  unfold NewCSCache. unfold mbind at 1. unfold M_bind. rewrite sample_build. reflexivity.
Qed.

Lemma NewCSCache_has_clients_witness :
  ∃ client,
    getClientForGVK sample_RESTClientFor sample_userAgent (gvkList sample_gvk)
      sample_config sample_scheme = Ok client.
Proof.
  apply (NewCSCache_has_clients sample_RESTClientFor sample_userAgent
           sample_FromUnstructured sample_NewFilteredCacheBuilder
           sample_MultiNamespacedFilteredCacheBuilder [sample_gvk] ∅ [""]
           sample_config sample_opts None sample_world
           (set_informers (insert 2%positive
              (new_informer sample_client "" "" "Widget" 0)) sample_world)
           {| config := sample_config;
              informerMap := <[gvkList sample_gvk := 2%positive]>
                               {[ sample_gvk := 2%positive ]};
              fallback := sample_fallback; Scheme := sample_scheme |}
           (gvkList sample_gvk) 2%positive sample_NewCSCache).
  apply lookup_insert_eq.
Defined.
